(** * AMR flashcard scheduler: a shallow embedding of [src/api/index.py]

    The development embeds the three scheduling functions of the module
    ([calculate_retention], [schedule_next_review], [update_card_on_review])
    and proves the properties of the specification about them.

    Modelling conventions.
    - A Python [float] is a real number of [R]: arithmetic is exact, there is
      no rounding, infinity or NaN, and the statements are chosen so that
      they also hold of the binary64 computation on finite numbers.
      [math.exp] is [exp] up to the largest float and raises beyond it,
      [math.log] is [ln], the two-argument [max] is [Rmax].
    - A Python [int] is a [Z].
    - A naive [datetime] is the number of microseconds since
      0001-01-01T00:00:00, the resolution and the range of the library type;
      a [timedelta] is a signed number of microseconds.
    - The system clock is part of the state a call runs in: [utcnow] returns
      the next reading and counts it.
    - The dict bound to [card_data] is an object of the state as well, so that
      in-place updates, also those made before an exception, are visible.
    - An exception is a value of [exn]; a call returns [inl e] when it
      raises. *)

From Stdlib Require Import Reals Lra Lia ZArith String Ascii List Bool.
From Stdlib Require Import ROrderedType.
Import ListNotations.

Local Open Scope Z_scope.

(* ------------------------------------------------------------------ *)
(** * Exceptions and the state-and-exception monad *)

Inductive exn : Type :=
| ValueError (msg : string)
| OverflowError (msg : string).

(** A computation over a state [S]: it ends in a value or in an exception,
    and in both cases leaves a state behind. *)
Definition M (S A : Type) : Type := S -> (exn + A) * S.

Definition ret {S A} (a : A) : M S A := fun s => (inr a, s).

Definition raise {S A} (e : exn) : M S A := fun s => (inl e, s).

Definition bind {S A B} (c : M S A) (k : A -> M S B) : M S B :=
  fun s =>
    match c s with
    | (inl e, s') => (inl e, s')
    | (inr a, s') => k a s'
    end.

Definition get {S} : M S S := fun s => (inr s, s).

Definition modify {S} (f : S -> S) : M S unit := fun s => (inr tt, f s).

(** A pure call that may raise, run inside a computation. *)
Definition lift {S A} (r : exn + A) : M S A := fun s => (r, s).

Declare Scope py_scope.
Delimit Scope py_scope with py.
Notation "x <- c ;; k" := (bind c (fun x => k))
  (at level 61, c at next level, right associativity) : py_scope.
Notation "c ;; k" := (bind c (fun _ => k))
  (at level 61, right associativity) : py_scope.

(* ------------------------------------------------------------------ *)
(** * Rounding of a real to an integer

    Python's [round] on a float, used by the [timedelta] constructor:
    the nearest integer, ties to the even one. *)

Definition round_half_even (x : R) : Z :=
  let n := Zfloor x in
  match Rcompare (x - IZR n) (1 / 2) with
  | Lt => n
  | Gt => n + 1
  | Eq => if Z.even n then n else n + 1
  end.

(* ------------------------------------------------------------------ *)
(** * The part of the [datetime] library the module uses *)

Module Datetime.

(** A naive datetime: microseconds since 0001-01-01T00:00:00. *)
Record datetime : Type := DT { ticks : Z }.

(** A duration in microseconds; the library keeps the normalised triple
    (days, seconds, microseconds), which this number determines. *)
Record timedelta : Type := TD { total_us : Z }.

Definition US_PER_SECOND : Z := 1000000.
Definition US_PER_DAY : Z := 86400 * US_PER_SECOND.
Definition MAXORDINAL : Z := 3652059.
Definition MAX_DELTA_DAYS : Z := 999999999.

(** The representable datetimes: 0001-01-01T00:00:00 up to
    9999-12-31T23:59:59.999999. *)
Definition in_range (d : datetime) : bool :=
  (0 <=? ticks d) && (ticks d <? MAXORDINAL * US_PER_DAY).

(** ** The proleptic Gregorian calendar *)

Definition DAYS_IN_MONTH : list Z :=
  [-1; 31; 28; 31; 30; 31; 30; 31; 31; 30; 31; 30; 31].

Definition DAYS_BEFORE_MONTH : list Z :=
  [-1; 0; 31; 59; 90; 120; 151; 181; 212; 243; 273; 304; 334].

Definition index (l : list Z) (i : Z) : Z := nth (Z.to_nat i) l 0.

Definition is_leap (year : Z) : bool :=
  (year mod 4 =? 0) && (negb (year mod 100 =? 0) || (year mod 400 =? 0)).

Definition days_before_year (year : Z) : Z :=
  let y := year - 1 in
  y * 365 + y / 4 - y / 100 + y / 400.

Definition days_in_month (year month : Z) : Z :=
  if (month =? 2) && is_leap year then 29 else index DAYS_IN_MONTH month.

Definition days_before_month (year month : Z) : Z :=
  index DAYS_BEFORE_MONTH month
  + (if (month >? 2) && is_leap year then 1 else 0).

Definition ymd2ord (year month day : Z) : Z :=
  days_before_year year + days_before_month year month + day.

Definition DI400Y : Z := 146097.
Definition DI100Y : Z := 36524.
Definition DI4Y : Z := 1461.

Definition ord2ymd (n : Z) : Z * Z * Z :=
  let n := n - 1 in
  let n400 := n / DI400Y in
  let n := n mod DI400Y in
  let year := n400 * 400 + 1 in
  let n100 := n / DI100Y in
  let n := n mod DI100Y in
  let n4 := n / DI4Y in
  let n := n mod DI4Y in
  let n1 := n / 365 in
  let n := n mod 365 in
  let year := year + n100 * 100 + n4 * 4 + n1 in
  if (n1 =? 4) || (n100 =? 4) then (year - 1, 12, 31)
  else
    let leapyear := (n1 =? 3) && (negb (n4 =? 24) || (n100 =? 3)) in
    let month := Z.shiftr (n + 50) 5 in
    let preceding :=
      index DAYS_BEFORE_MONTH month
      + (if (month >? 2) && leapyear then 1 else 0) in
    if preceding >? n then
      let month := month - 1 in
      let preceding :=
        preceding
        - (index DAYS_IN_MONTH month
           + (if (month =? 2) && leapyear then 1 else 0)) in
      (year, month, n - preceding + 1)
    else (year, month, n - preceding + 1).

(** ** Formatting: [isoformat] *)

Definition digit (n : Z) : ascii := ascii_of_nat (48 + Z.to_nat (n mod 10)).

(** [n] written in decimal on [width] digits, zero padded. *)
Fixpoint zero_padded (width : nat) (n : Z) : string :=
  match width with
  | O => EmptyString
  | S w => (zero_padded w (n / 10)%Z ++ String (digit n) EmptyString)%string
  end.

Definition format_time (hh mm ss us : Z) : string :=
  (zero_padded 2 hh ++ ":" ++ zero_padded 2 mm ++ ":" ++ zero_padded 2 ss
   ++ (if (us =? 0)%Z then "" else "." ++ zero_padded 6 us))%string.

Definition isoformat (d : datetime) : string :=
  let days := ticks d / US_PER_DAY in
  let rest := ticks d mod US_PER_DAY in
  let '(year, month, day) := ord2ymd (days + 1) in
  let secs := rest / US_PER_SECOND in
  let us := rest mod US_PER_SECOND in
  (zero_padded 4 year ++ "-" ++ zero_padded 2 month ++ "-"
   ++ zero_padded 2 day ++ "T"
   ++ format_time (secs / 3600)%Z (secs mod 3600 / 60)%Z (secs mod 60)%Z us)%string.

(** ** Parsing: [fromisoformat]

    The accepted strings are the two shapes [isoformat] writes for a naive
    datetime, [YYYY-MM-DDTHH:MM:SS] and [YYYY-MM-DDTHH:MM:SS.ffffff].
    Python accepts further shapes (a date alone, other separators, a UTC
    offset); nothing is proved here that depends on their rejection.  The
    empty string is rejected by Python as it is here. *)

Definition digit_value (c : ascii) : option Z :=
  let n := Z.of_nat (nat_of_ascii c) in
  if (48 <=? n) && (n <=? 57) then Some (n - 48) else None.

(** Reads [width] decimal digits; returns their value and the rest. *)
Fixpoint read_digits (width : nat) (acc : Z) (s : string) : option (Z * string) :=
  match width with
  | O => Some (acc, s)
  | S w =>
      match s with
      | EmptyString => None
      | String c s' =>
          match digit_value c with
          | Some v => read_digits w (acc * 10 + v) s'
          | None => None
          end
      end
  end.

Definition expect (c : ascii) (s : string) : option string :=
  match s with
  | String c' s' => if Ascii.eqb c c' then Some s' else None
  | EmptyString => None
  end.

Definition check_date_fields (year month day : Z) : bool :=
  (1 <=? year) && (year <=? 9999) && (1 <=? month) && (month <=? 12)
  && (1 <=? day) && (day <=? days_in_month year month).

Definition check_time_fields (hour minute second microsecond : Z) : bool :=
  (0 <=? hour) && (hour <=? 23) && (0 <=? minute) && (minute <=? 59)
  && (0 <=? second) && (second <=? 59)
  && (0 <=? microsecond) && (microsecond <=? 999999).

(** The datetime with the given calendar fields. *)
Definition of_fields (year month day hour minute second microsecond : Z) : datetime :=
  DT (((ymd2ord year month day - 1) * 86400
       + hour * 3600 + minute * 60 + second) * US_PER_SECOND + microsecond).

Definition and_then {A B} (o : option A) (k : A -> option B) : option B :=
  match o with
  | Some a => k a
  | None => None
  end.

Definition parse_fields (s : string) : option (Z * Z * Z * Z * Z * Z * Z) :=
  and_then (read_digits 4 0 s) (fun '(year, s) =>
  and_then (expect "-" s) (fun s =>
  and_then (read_digits 2 0 s) (fun '(month, s) =>
  and_then (expect "-" s) (fun s =>
  and_then (read_digits 2 0 s) (fun '(day, s) =>
  and_then (expect "T" s) (fun s =>
  and_then (read_digits 2 0 s) (fun '(hour, s) =>
  and_then (expect ":" s) (fun s =>
  and_then (read_digits 2 0 s) (fun '(minute, s) =>
  and_then (expect ":" s) (fun s =>
  and_then (read_digits 2 0 s) (fun '(second, s) =>
  match s with
  | EmptyString => Some (year, month, day, hour, minute, second, 0)
  | _ =>
      and_then (expect "." s) (fun s =>
      match read_digits 6 0 s with
      | Some (microsecond, EmptyString) =>
          Some (year, month, day, hour, minute, second, microsecond)
      | _ => None
      end)
  end))))))))))).

Definition fromisoformat (s : string) : exn + datetime :=
  match parse_fields s with
  | Some (year, month, day, hour, minute, second, microsecond) =>
      if check_date_fields year month day
         && check_time_fields hour minute second microsecond
      then inr (of_fields year month day hour minute second microsecond)
      else inl (ValueError "Invalid isoformat string")
  | None => inl (ValueError "Invalid isoformat string")
  end.

(** ** Durations and arithmetic *)

(** [timedelta(days=x)] for a float [x]: the duration rounded to the
    nearest microsecond, refused beyond 999999999 days. *)
Definition timedelta_days (x : R) : exn + timedelta :=
  let us := round_half_even (x * IZR US_PER_DAY) in
  if Z.abs (us / US_PER_DAY) >? MAX_DELTA_DAYS
  then inl (OverflowError "timedelta # of days is too large")
  else inr (TD us).

(** [d + delta]: refused when the sum leaves the representable range. *)
Definition add (d : datetime) (delta : timedelta) : exn + datetime :=
  let r := DT (ticks d + total_us delta) in
  if in_range r then inr r
  else inl (OverflowError "date value out of range").

(** [d1 - d2] of two naive datetimes. *)
Definition sub (d1 d2 : datetime) : timedelta := TD (ticks d1 - ticks d2).

Definition total_seconds (delta : timedelta) : R :=
  (IZR (total_us delta) / IZR US_PER_SECOND)%R.

End Datetime.
Import Datetime.

(* ------------------------------------------------------------------ *)
(** * The system clock *)

(** The clock is a sequence of readings; [reads] counts the readings taken
    so far, so that each call of [datetime.utcnow()] is observable. *)
Record World : Type := { clock : nat -> datetime; reads : nat }.

Definition tick (w : World) : World :=
  {| clock := clock w; reads := S (reads w) |}.

(** The reading the next call of [datetime.utcnow()] returns. *)
Definition current_time (w : World) : datetime := clock w (reads w).

(* ------------------------------------------------------------------ *)
(** * AMR configuration *)

Local Open Scope R_scope.

Definition DEFAULT_STRENGTH : R := 1.0.
Definition RETENTION_TARGET : R := 0.85.
Definition MIN_INTERVAL_DAYS : R := 0.5.
Definition BOX_COUNT : Z := 5.

(** A dict literal with [int] keys, in source order. *)
Definition QUALITY_MULTIPLIER : list (Z * R) :=
  [ (5%Z, 1.30);
    (4%Z, 1.15);
    (3%Z, 1.05);
    (2%Z, 0.85);
    (1%Z, 0.6);
    (0%Z, 0.45) ].

(** [d.get(key, default)]. *)
Fixpoint dict_get (d : list (Z * R)) (key : Z) (default : R) : R :=
  match d with
  | [] => default
  | (k, v) :: rest => if (k =? key)%Z then v else dict_get rest key default
  end.

(* ------------------------------------------------------------------ *)
(** * The card record and its history entries *)

(** The dict built at [history_entry]. *)
Module HistoryEntry.
Record t : Type := Build {
  time : string;
  quality : Z;
  old_strength : R;
  old_box : Z;
  new_strength : R;
  new_box : Z
}.
End HistoryEntry.

(** The keys of [card_data] the scheduling functions read or write.  The
    keys ["strength"] and ["box"] are present, a float and an int.
    [history = None] is a dict without the key ["history"]; a timestamp that
    is [None] is the Python [None].  The other keys of a stored card
    ([id], [front], [back]) are never touched and are left out. *)
Record Card : Type := {
  strength : R;
  box : Z;
  last_review : option string;
  next_review : option string;
  history : option (list HistoryEntry.t)
}.

Definition set_strength (v : R) (c : Card) : Card :=
  {| strength := v; box := box c; last_review := last_review c;
     next_review := next_review c; history := history c |}.

Definition set_box (v : Z) (c : Card) : Card :=
  {| strength := strength c; box := v; last_review := last_review c;
     next_review := next_review c; history := history c |}.

Definition set_last_review (v : option string) (c : Card) : Card :=
  {| strength := strength c; box := box c; last_review := v;
     next_review := next_review c; history := history c |}.

Definition set_next_review (v : option string) (c : Card) : Card :=
  {| strength := strength c; box := box c; last_review := last_review c;
     next_review := v; history := history c |}.

Definition set_history (v : option (list HistoryEntry.t)) (c : Card) : Card :=
  {| strength := strength c; box := box c; last_review := last_review c;
     next_review := next_review c; history := v |}.

(** [card_data["history"].append(e)]; the key is present when this runs. *)
Definition history_append (e : HistoryEntry.t) (c : Card) : Card :=
  match history c with
  | Some l => set_history (Some (l ++ [e])) c
  | None => c
  end.

(** The state a call of [update_card_on_review] runs in: the system clock and
    the dict object its parameter [card_data] is bound to. *)
Record Heap : Type := { sys : World; card_data : Card }.

Definition on_card (f : Card -> Card) (h : Heap) : Heap :=
  {| sys := sys h; card_data := f (card_data h) |}.

(** [datetime.utcnow()] *)
Definition utcnow : M World datetime :=
  fun w => (inr (current_time w), tick w).

(** A computation on the clock alone, run in a state that has a clock. *)
Definition with_clock {A} (c : M World A) : M Heap A :=
  fun h =>
    let '(r, w) := c (sys h) in
    (r, {| sys := w; card_data := card_data h |}).

(** Truth value of an [Optional[str]]: [None] and the empty string are false. *)
Definition truthy (s : option string) : bool :=
  match s with
  | None => false
  | Some EmptyString => false
  | Some (String _ _) => true
  end.

(* ------------------------------------------------------------------ *)
(** * AMR logic functions *)

Local Open Scope py_scope.

(** The largest binary64 number, [(2 - 2^-52) * 2^1023]. *)
Definition MAX_FLOAT : R := IZR (2 ^ 1024 - 2 ^ 971)%Z.

(** [math.exp(x)]: raises [OverflowError] when the result is beyond the
    largest float. *)
Definition math_exp (x : R) : exn + R :=
  if Rlt_dec MAX_FLOAT (exp x)
  then inl (OverflowError "math range error")
  else inr (exp x).

(** def calculate_retention(strength, last_review) *)
Definition calculate_retention (strength : R) (last_review : option string)
  : M World R :=
  if negb (truthy last_review) then ret 0.0
  else
    last_dt <- lift (fromisoformat (match last_review with
                                    | Some s => s
                                    | None => EmptyString
                                    end)) ;;
    now <- utcnow ;;
    let t_days := total_seconds (sub now last_dt) / 86400.0 in
    lift (math_exp (- t_days / Rmax 1e-6 strength)).

(** def schedule_next_review(strength, now) *)
Definition schedule_next_review (strength : R) (now : datetime) : exn + string :=
  let t_days := - strength * ln RETENTION_TARGET in
  let t_days := Rmax t_days MIN_INTERVAL_DAYS in
  match timedelta_days t_days with
  | inl e => inl e
  | inr delta =>
      match add now delta with
      | inl e => inl e
      | inr next_dt => inr (isoformat next_dt)
      end
  end.

(** def update_card_on_review(card_data, quality) *)
Definition update_card_on_review (quality : Z) : M Heap Card :=
  if ((quality <? 0) || (quality >? 5))%Z
  then raise (ValueError "Quality must be 0-5")
  else
    now <- with_clock utcnow ;;
    (* Update strength *)
    h0 <- get ;;
    let old_strength := strength (card_data h0) in
    let old_box := box (card_data h0) in
    let mult := dict_get QUALITY_MULTIPLIER quality 1.0 in
    let new_strength := Rmax 0.1 (old_strength * mult) in
    (* Bonus for perfect recall *)
    let new_strength :=
      if (quality =? 5)%Z then new_strength + 0.2 else new_strength in
    (* Update Leitner box *)
    let new_box :=
      if (quality >=? 4)%Z then Z.min BOX_COUNT (old_box + 1)
      else if (quality <=? 2)%Z then 1%Z
      else old_box in
    (* Create history entry *)
    let history_entry :=
      {| HistoryEntry.time := isoformat now;
         HistoryEntry.quality := quality;
         HistoryEntry.old_strength := old_strength;
         HistoryEntry.old_box := old_box;
         HistoryEntry.new_strength := new_strength;
         HistoryEntry.new_box := new_box |} in
    (* Update card *)
    modify (on_card (set_strength new_strength)) ;;
    modify (on_card (set_box new_box)) ;;
    modify (on_card (set_last_review (Some (isoformat now)))) ;;
    next <- lift (schedule_next_review new_strength now) ;;
    modify (on_card (set_next_review (Some next))) ;;
    h <- get ;;
    (match history (card_data h) with
     | None => modify (on_card (set_history (Some [])))
     | Some _ => ret tt
     end) ;;
    modify (on_card (history_append history_entry)) ;;
    h <- get ;;
    ret (card_data h).

(* ------------------------------------------------------------------ *)
(** * API endpoints over the logic functions *)

(** POST /api/cards/calculate-retention: the value under ["retention"]. *)
Definition calculate_card_retention (strength : R) (last_review : option string)
  : M World R :=
  retention <- calculate_retention strength last_review ;;
  ret retention.

(** POST /api/cards/schedule: the value under ["next_review"]. *)
Definition calculate_schedule (strength : R) : M World string :=
  now <- utcnow ;;
  next_review <- lift (schedule_next_review strength now) ;;
  ret next_review.

Local Close Scope py_scope.

(* ------------------------------------------------------------------ *)
(** * Derived definitions used in the statements *)

Local Open Scope R_scope.

(** The error raised for a quality outside 0..5. *)
Definition InvalidQuality : exn := ValueError "Quality must be 0-5".

(** The strength and the box a review of quality [q] assigns. *)
Definition reviewed_strength (c : Card) (q : Z) : R :=
  let floored := Rmax 0.1 (strength c * dict_get QUALITY_MULTIPLIER q 1.0) in
  if (q =? 5)%Z then floored + 0.2 else floored.

Definition reviewed_box (c : Card) (q : Z) : Z :=
  if (q >=? 4)%Z then Z.min BOX_COUNT (box c + 1)
  else if (q <=? 2)%Z then 1%Z
  else box c.

Definition reviewed_entry (c : Card) (q : Z) (now : datetime) : HistoryEntry.t :=
  {| HistoryEntry.time := isoformat now;
     HistoryEntry.quality := q;
     HistoryEntry.old_strength := strength c;
     HistoryEntry.old_box := box c;
     HistoryEntry.new_strength := reviewed_strength c q;
     HistoryEntry.new_box := reviewed_box c q |}.

(** The entries of a card, none when the key is missing. *)
Definition entries (c : Card) : list HistoryEntry.t :=
  match history c with
  | Some l => l
  | None => []
  end.

(** The card as the assignments before the scheduling call leave it. *)
Definition half_updated (c : Card) (q : Z) (now : datetime) : Card :=
  {| strength := reviewed_strength c q;
     box := reviewed_box c q;
     last_review := Some (isoformat now);
     next_review := next_review c;
     history := history c |}.

(** The card at the [return]. *)
Definition fully_updated (c : Card) (q : Z) (now : datetime) (next : string)
  : Card :=
  {| strength := reviewed_strength c q;
     box := reviewed_box c q;
     last_review := Some (isoformat now);
     next_review := Some next;
     history := Some (entries c ++ [reviewed_entry c q now]) |}.

(** Half a day in microseconds. *)
Definition HALF_DAY_US : Z := 43200000000.

(** The interval the scheduler adds, in days and in microseconds. *)
Definition interval_days (s : R) : R :=
  Rmax (- s * ln RETENTION_TARGET) MIN_INTERVAL_DAYS.

Definition interval_us (s : R) : Z :=
  round_half_even (interval_days s * IZR US_PER_DAY).

(** The multiplier table as the specification prints it. *)
Definition spec_multiplier (q : Z) : option R :=
  match q with
  | 5%Z => Some 1.30
  | 4%Z => Some 1.15
  | 3%Z => Some 1.05
  | 2%Z => Some 0.85
  | 1%Z => Some 0.60
  | 0%Z => Some 0.45
  | _ => None
  end.

(** A clock that shows 2026-01-01T00:00:00 at every reading, and a freshly
    created card: the running example. *)
Definition NEW_YEAR : datetime := DT 63902822400000000.

Definition frozen_clock (d : datetime) : World :=
  {| clock := fun _ => d; reads := 0 |}.

Definition fresh_card : Card :=
  {| strength := DEFAULT_STRENGTH; box := 1; last_review := None;
     next_review := None; history := None |}.

Definition fresh_heap : Heap :=
  {| sys := frozen_clock NEW_YEAR; card_data := fresh_card |}.

(** The day after, and the day before, the running example's clock. *)
Definition NEXT_DAY : datetime := DT (ticks NEW_YEAR + US_PER_DAY).

Definition EVE : string := "2025-12-31T00:00:00".

(** A [last_review] one day ahead of the running example's clock. *)
Definition FUTURE : string := "2026-01-02T00:00:00".

(** Elapsed time between two datetimes in days, as a float. *)
Definition elapsed_days (now last_dt : datetime) : R :=
  IZR (ticks now - ticks last_dt) / 1000000 / 86400.

(** A strength whose interval leaves the calendar, and one whose interval
    exceeds half a day by about an eighth of a microsecond. *)
Definition STRONG : R := 100000000.

Definition TIGHT : R := 3.07656469032.

(** A strength of one thousandth: a day of elapsed time is a thousand time
    constants. *)
Definition FLEETING : R := 0.001.

(** [n] squared [k] times in fixed point: every product is rounded down to
    a multiple of [1 / scale].  Used to bound [exp] from below. *)
Fixpoint square_down (scale : Z) (k : nat) (n : Z) : Z :=
  match k with
  | O => n
  | S k' => square_down scale k' (n * n / scale)%Z
  end.

(** Runs of successful reviews: [review_run h states] holds when [states]
    lists the states after each of a sequence of calls that all returned,
    the first one made in [h]. *)
Inductive review_run : Heap -> list Heap -> Prop :=
| run_done (h : Heap) : review_run h []
| run_step (h h' : Heap) (q : Z) (c : Card) (rest : list Heap) :
    update_card_on_review q h = (inr c, h') ->
    review_run h' rest ->
    review_run h (h' :: rest).

(** The running example after a review of quality 5, and after a second
    review of quality 1. *)
Definition NOON : string := "2026-01-01T12:00:00".

Definition reviewed_once : Heap :=
  {| sys := tick (frozen_clock NEW_YEAR);
     card_data := fully_updated fresh_card 5 NEW_YEAR NOON |}.

Definition reviewed_twice : Heap :=
  {| sys := tick (tick (frozen_clock NEW_YEAR));
     card_data := fully_updated (card_data reviewed_once) 1 NEW_YEAR NOON |}.

(* ------------------------------------------------------------------ *)
(** * Further definitions: the rest of the module and its uses *)

Local Open Scope py_scope.

(** GET /api/health: the dict the endpoint returns. *)
Record Health : Type := { status : string; timestamp : string }.

(** def health_check() *)
Definition health_check : M World Health :=
  now <- utcnow ;;
  ret {| status := "healthy"; timestamp := isoformat now |}.

Local Close Scope py_scope.

Local Open Scope Z_scope.

(** The month and the day of the month of the [n]-th day of a year, counted
    from 0: the last part of [ord2ymd]. *)
Definition month_day (leapyear : bool) (n : Z) : Z * Z :=
  let month := Z.shiftr (n + 50) 5 in
  let preceding :=
    index DAYS_BEFORE_MONTH month
    + (if (month >? 2) && leapyear then 1 else 0) in
  if preceding >? n then
    let month := month - 1 in
    let preceding :=
      preceding
      - (index DAYS_IN_MONTH month
         + (if (month =? 2) && leapyear then 1 else 0)) in
    (month, n - preceding + 1)
  else (month, n - preceding + 1).

Definition month_day_ok (leapyear : bool) (n : Z) : bool :=
  let '(m, d) := month_day leapyear n in
  (1 <=? m) && (m <=? 12) && (1 <=? d)
  && (d <=? (if (m =? 2) && leapyear then 29 else index DAYS_IN_MONTH m))
  && (index DAYS_BEFORE_MONTH m + (if (m >? 2) && leapyear then 1 else 0) + d
      =? n + 1).

Local Open Scope R_scope.

(** Runs of returning reviews with their qualities: [reviews h qs h'] holds
    when calling the update with the qualities [qs] in turn, starting in
    [h], returns every time and ends in [h']. *)
Inductive reviews : Heap -> list Z -> Heap -> Prop :=
| reviews_nil (h : Heap) : reviews h [] h
| reviews_cons (h h1 h2 : Heap) (q : Z) (c : Card) (qs : list Z) :
    update_card_on_review q h = (inr c, h1) ->
    reviews h1 qs h2 ->
    reviews h (q :: qs) h2.

(** A history in which every entry starts from the strength and box the
    entry before it ended with. *)
Fixpoint chained (l : list HistoryEntry.t) : Prop :=
  match l with
  | e1 :: (e2 :: _) as rest =>
      HistoryEntry.new_strength e1 = HistoryEntry.old_strength e2
      /\ HistoryEntry.new_box e1 = HistoryEntry.old_box e2
      /\ chained rest
  | _ => True
  end.

Fixpoint last_entry (l : list HistoryEntry.t) : option HistoryEntry.t :=
  match l with
  | [] => None
  | [e] => Some e
  | _ :: rest => last_entry rest
  end.

(** The history agrees with the card: it is chained and its last entry, if
    there is one, ends with the strength and box the card has. *)
Definition audit_ok (c : Card) : Prop :=
  chained (entries c)
  /\ match last_entry (entries c) with
     | Some e =>
         HistoryEntry.new_strength e = strength c
         /\ HistoryEntry.new_box e = box c
     | None => True
     end.

(** A mastered card whose strength has grown past what the calendar can
    schedule. *)
Definition strong_heap : Heap :=
  {| sys := frozen_clock NEW_YEAR;
     card_data := {| strength := STRONG; box := 5; last_review := None;
                     next_review := None; history := None |} |}.

(* ================================================================== *)
(** * Properties *)

(** ** Rounding *)

Section Rounding.

Local Open Scope R_scope.

(** From an inequality between reals that are integers to [Z]. *)
Ltac to_Z :=
  first [ apply lt_IZR | apply le_IZR ];
  repeat first [ rewrite plus_IZR | rewrite minus_IZR ]; lra.

Lemma round_half_even_cases (x : R) :
  let n := Zfloor x in
  (x - IZR n < 1 / 2 /\ round_half_even x = n)
  \/ (1 / 2 < x - IZR n /\ round_half_even x = (n + 1)%Z)
  \/ (x - IZR n = 1 / 2
      /\ round_half_even x = if Z.even n then n else (n + 1)%Z).
Proof.
  intros n. unfold round_half_even. fold n.
  destruct (Rcompare_spec (x - IZR n) (1 / 2)) as [E | L | G]; auto.
Qed.

Lemma round_half_even_IZR (z : Z) : round_half_even (IZR z) = z.
Proof.
  destruct (round_half_even_cases (IZR z)) as [[_ E] | [[H _] | [H _]]];
    rewrite ZfloorZ in *; [exact E | lra | lra].
Qed.

(** Rounding moves a number by at most one half. *)
Lemma round_half_even_near (x : R) :
  IZR (round_half_even x) - 1 / 2 <= x <= IZR (round_half_even x) + 1 / 2.
Proof.
  pose proof (Zfloor_bound x) as B.
  destruct (round_half_even_cases x) as [[H E] | [[H E] | [H E]]];
    rewrite E; clear E.
  - lra.
  - rewrite plus_IZR. lra.
  - destruct (Z.even (Zfloor x)); [| rewrite plus_IZR]; lra.
Qed.

(** An integer below [x] is below the rounding of [x], and dually. *)
Lemma round_half_even_lower (n : Z) (x : R) :
  IZR n <= x -> (n <= round_half_even x)%Z.
Proof.
  intros H. pose proof (round_half_even_near x) as B.
  assert (n < round_half_even x + 1)%Z by to_Z. lia.
Qed.

Lemma round_half_even_upper (n : Z) (x : R) :
  x <= IZR n -> (round_half_even x <= n)%Z.
Proof.
  intros H. pose proof (round_half_even_near x) as B.
  assert (round_half_even x - 1 < n)%Z by to_Z. lia.
Qed.

(** The reals that round to an even integer form a closed interval: both
    ties go to the even neighbour. *)
Lemma round_half_even_even (n : Z) (x : R) :
  Z.even n = true ->
  (round_half_even x = n <-> IZR n - 1 / 2 <= x <= IZR n + 1 / 2).
Proof.
  intros Hn. split.
  - intros <-. apply round_half_even_near.
  - intros Hx. pose proof (Zfloor_bound x) as B.
    destruct (round_half_even_cases x) as [[H E] | [[H E] | [H E]]];
      rewrite E; clear E.
    + assert (Zfloor x < n + 1)%Z by to_Z.
      assert (n - 1 < Zfloor x)%Z by to_Z. lia.
    + assert (Zfloor x < n)%Z by to_Z.
      assert (n - 1 < Zfloor x + 1)%Z by to_Z. lia.
    + assert (Zfloor x < n + 1)%Z by to_Z.
      assert (n - 2 < Zfloor x)%Z by to_Z.
      assert (C : Zfloor x = n \/ Zfloor x = (n - 1)%Z) by lia.
      destruct C as [C | C]; rewrite C.
      * rewrite Hn. reflexivity.
      * replace (Z.even (n - 1)) with false; [lia |].
        rewrite Z.even_sub, Hn. reflexivity.
Qed.

End Rounding.

(** ** The retention target *)

Section RetentionTarget.

Local Open Scope R_scope.

(** [-ln(0.85)] is about [0.1625]; these bounds are all the proofs use. *)
Lemma ln_RETENTION_TARGET_bounds :
  - (1 / 5) < ln RETENTION_TARGET < - (3 / 20).
Proof.
  unfold RETENTION_TARGET. split.
  - rewrite <- (ln_exp (- (1 / 5))).
    apply ln_increasing; [apply exp_pos |].
    rewrite exp_Ropp.
    assert (H : 1 + 1 / 5 < exp (1 / 5)) by (apply exp_ineq1; lra).
    apply Rlt_trans with (/ (1 + 1 / 5)); [| lra].
    apply Rinv_lt_contravar; [| exact H].
    apply Rmult_lt_0_compat; lra.
  - rewrite <- (ln_exp (- (3 / 20))).
    apply ln_increasing; [lra |].
    pose proof (exp_ineq1 (- (3 / 20))) as H.
    lra.
Qed.

Lemma interval_positive (s : R) : 0 < s -> 0 < - s * ln RETENTION_TARGET.
Proof.
  intros Hs. pose proof ln_RETENTION_TARGET_bounds as [_ B].
  assert (0 < s * - ln RETENTION_TARGET) by (apply Rmult_lt_0_compat; lra).
  lra.
Qed.

End RetentionTarget.

(** ** Lower bounds of the exponential and the float range *)

Section ExpBounds.

Local Open Scope R_scope.

Variable scale : Z.
Hypothesis scale_pos : (0 < scale)%Z.

Lemma square_down_sound (k : nat) :
  forall (n : Z) (z : R),
    (0 <= n)%Z ->
    IZR n / IZR scale <= exp z ->
    IZR (square_down scale k n) / IZR scale <= exp (z * 2 ^ k).
Proof.
  assert (Hs : 0 < IZR scale) by (apply IZR_lt; exact scale_pos).
  induction k as [| k IH]; intros n z Hn H.
  - cbn [square_down pow]. rewrite Rmult_1_r. exact H.
  - cbn [square_down pow].
    replace (z * (2 * 2 ^ k)) with ((z + z) * 2 ^ k) by ring.
    apply IH.
    + apply Z.div_pos; [| exact scale_pos].
      apply Z.mul_nonneg_nonneg; exact Hn.
    + rewrite exp_plus.
      assert (Hq : (scale * (n * n / scale) <= n * n)%Z)
        by (apply Z.mul_div_le; exact scale_pos).
      apply IZR_le in Hq. rewrite !mult_IZR in Hq.
      assert (Hn' : 0 <= IZR n / IZR scale).
      { apply Rmult_le_pos; [apply IZR_le; exact Hn |].
        left. apply Rinv_0_lt_compat. exact Hs. }
      apply Rle_trans with (IZR n / IZR scale * (IZR n / IZR scale)).
      * unfold Rdiv.
        apply Rmult_le_reg_r with (IZR scale); [exact Hs |].
        apply Rmult_le_reg_r with (IZR scale); [exact Hs |].
        replace (IZR (n * n / scale) * / IZR scale * IZR scale * IZR scale)
          with (IZR scale * IZR (n * n / scale)) by (field; lra).
        replace (IZR n * / IZR scale * (IZR n * / IZR scale) * IZR scale
                 * IZR scale)
          with (IZR n * IZR n) by (field; lra).
        exact Hq.
      * apply Rmult_le_compat; assumption.
Qed.

(** A strict lower bound [c1 / c2] of [exp (p / q)], checked in integers:
    [1 + z / 2^k <= exp (z / 2^k)] is squared [k] times, every product
    rounded down to a multiple of [1 / scale]. *)
Lemma exp_above (k : nat) (n p q c1 c2 : Z) :
  (0 <= n)%Z -> (0 < q)%Z -> (0 < c2)%Z ->
  (n * (2 ^ Z.of_nat k * q) <= (2 ^ Z.of_nat k * q + p) * scale)%Z ->
  (c1 * scale < c2 * square_down scale k n)%Z ->
  IZR c1 / IZR c2 < exp (IZR p / IZR q).
Proof.
  intros Hn Hq Hc2 Hstart Hend.
  assert (Hs : 0 < IZR scale) by (apply IZR_lt; exact scale_pos).
  assert (HQ : 0 < IZR q) by (apply IZR_lt; exact Hq).
  assert (HC : 0 < IZR c2) by (apply IZR_lt; exact Hc2).
  assert (HK : 0 < 2 ^ k) by (apply pow_lt; lra).
  set (z := IZR p / IZR q).
  assert (H0 : IZR n / IZR scale <= exp (z / 2 ^ k)).
  { apply Rle_trans with (1 + z / 2 ^ k); [| apply exp_ineq1_le].
    apply IZR_le in Hstart.
    rewrite !mult_IZR, plus_IZR, mult_IZR, <- pow_IZR in Hstart.
    change (IZR 2) with 2 in Hstart.
    apply Rmult_le_reg_r with (IZR scale * (2 ^ k * IZR q));
      [apply Rmult_lt_0_compat; [exact Hs | apply Rmult_lt_0_compat; assumption] |].
    replace (IZR n / IZR scale * (IZR scale * (2 ^ k * IZR q)))
      with (IZR n * (2 ^ k * IZR q)) by (field; lra).
    replace ((1 + z / 2 ^ k) * (IZR scale * (2 ^ k * IZR q)))
      with ((2 ^ k * IZR q + IZR p) * IZR scale)
      by (unfold z; field; split; lra).
    exact Hstart. }
  pose proof (square_down_sound k n (z / 2 ^ k) Hn H0) as H1.
  replace (z / 2 ^ k * 2 ^ k) with z in H1 by (field; lra).
  apply Rlt_le_trans with (IZR (square_down scale k n) / IZR scale);
    [| exact H1].
  apply IZR_lt in Hend. rewrite !mult_IZR in Hend.
  apply Rmult_lt_reg_r with (IZR c2 * IZR scale);
    [apply Rmult_lt_0_compat; assumption |].
  replace (IZR c1 / IZR c2 * (IZR c2 * IZR scale))
    with (IZR c1 * IZR scale) by (field; lra).
  replace (IZR (square_down scale k n) / IZR scale * (IZR c2 * IZR scale))
    with (IZR c2 * IZR (square_down scale k n)) by (field; lra).
  exact Hend.
Qed.

End ExpBounds.


Section FloatRange.

Local Open Scope R_scope.

(** Thirteen digits of [-ln(0.85)]. *)
Lemma ln_085_digits : 0.1625189294975 < - ln 0.85 < 0.1625189294980.
Proof.
  split.
  - assert (H : IZR 17 / IZR 20 < exp (IZR (- 1625189294975) / IZR 10000000000000)).
    { apply (exp_above (10 ^ 40) ltac:(vm_compute; reflexivity) 40
               9999999999998521898946842156874481588602);
        vm_compute; first [reflexivity | discriminate]. }
    replace (IZR 17 / IZR 20) with (exp (ln 0.85)) in H
      by (rewrite exp_ln; lra).
    apply exp_lt_inv in H. lra.
  - assert (H : IZR 20 / IZR 17 < exp (IZR 1625189294980 / IZR 10000000000000)).
    { apply (exp_above (10 ^ 40) ltac:(vm_compute; reflexivity) 40
               10000000000001478101053162390599027276039);
        vm_compute; first [reflexivity | discriminate]. }
    replace (IZR 20 / IZR 17) with (exp (- ln 0.85)) in H
      by (rewrite exp_Ropp, exp_ln by lra; lra).
    apply exp_lt_inv in H. lra.
Qed.

(** The float range of [math.exp]: [exp 709] is a float, [exp 710] is not. *)
Lemma exp_709 : exp 709 < MAX_FLOAT.
Proof.
  assert (H : IZR 1 / IZR (2 ^ 1024 - 2 ^ 971) < exp (IZR (- 709) / IZR 1)).
  { apply (exp_above (10 ^ 400) ltac:(vm_compute; reflexivity) 30
             (10 ^ 400 - (709 * 10 ^ 400 / 2 ^ 30 + 1)));
      vm_compute; first [reflexivity | discriminate]. }
  assert (HM : 0 < MAX_FLOAT)
    by (apply IZR_lt; vm_compute; reflexivity).
  fold MAX_FLOAT in H.
  replace (IZR (- 709) / IZR 1) with (Ropp 709) in H by lra.
  rewrite exp_Ropp in H.
  pose proof (exp_pos 709) as Hp.
  replace (IZR 1 / MAX_FLOAT) with (/ MAX_FLOAT) in H by (unfold Rdiv; lra).
  apply Rinv_lt_contravar in H.
  - rewrite !Rinv_inv in H. exact H.
  - apply Rmult_lt_0_compat; apply Rinv_0_lt_compat; assumption.
Qed.

Lemma exp_710 : MAX_FLOAT < exp 710.
Proof.
  assert (H : IZR (2 ^ 1024 - 2 ^ 971) / IZR 1 < exp (IZR 710 / IZR 1)).
  { apply (exp_above (10 ^ 40) ltac:(vm_compute; reflexivity) 30
             (10 ^ 40 + 710 * 10 ^ 40 / 2 ^ 30));
      vm_compute; first [reflexivity | discriminate]. }
  fold MAX_FLOAT in H.
  replace (IZR 710 / IZR 1) with 710 in H by lra.
  replace (MAX_FLOAT / IZR 1) with MAX_FLOAT in H by lra.
  exact H.
Qed.

Lemma math_exp_returns (x : R) :
  exp x <= MAX_FLOAT -> math_exp x = inr (exp x).
Proof.
  intros H. unfold math_exp.
  destruct (Rlt_dec MAX_FLOAT (exp x)); [lra | reflexivity].
Qed.

Lemma math_exp_below (x : R) : x <= 709 -> math_exp x = inr (exp x).
Proof.
  intros H. apply math_exp_returns. pose proof exp_709 as H9.
  destruct H as [H | ->]; [apply exp_increasing in H |]; lra.
Qed.

Lemma math_exp_raises (x : R) :
  710 <= x -> math_exp x = inl (OverflowError "math range error").
Proof.
  intros H. unfold math_exp. pose proof exp_710 as H10.
  destruct (Rlt_dec MAX_FLOAT (exp x)) as [_ | N]; [reflexivity |].
  exfalso. apply N.
  destruct H as [H | <-]; [apply exp_increasing in H |]; lra.
Qed.

Lemma math_exp_inr (x r : R) : math_exp x = inr r -> r = exp x.
Proof.
  unfold math_exp. destruct (Rlt_dec _ _); intros H; inversion H. reflexivity.
Qed.

End FloatRange.

(** ** The review update, step by step *)

Section ReviewUpdate.

Local Open Scope R_scope.

Lemma update_card_on_review_invalid (q : Z) (h : Heap) :
  (q < 0 \/ 5 < q)%Z ->
  update_card_on_review q h = (inl InvalidQuality, h).
Proof.
  intros Hq. unfold update_card_on_review.
  replace ((q <? 0) || (q >? 5))%Z with true; [reflexivity |].
  symmetry. apply orb_true_iff. lia.
Qed.

(** A call with a valid quality reads the clock once, assigns strength,
    box and [last_review], and then either propagates the exception of the
    scheduling call or completes the update. *)
Lemma update_card_on_review_valid (q : Z) (h : Heap) :
  (0 <= q <= 5)%Z ->
  update_card_on_review q h =
    let now := current_time (sys h) in
    let c := card_data h in
    match schedule_next_review (reviewed_strength c q) now with
    | inl e =>
        (inl e, {| sys := tick (sys h); card_data := half_updated c q now |})
    | inr next =>
        (inr (fully_updated c q now next),
         {| sys := tick (sys h);
            card_data := fully_updated c q now next |})
    end.
Proof.
  intros Hq. unfold update_card_on_review.
  replace ((q <? 0) || (q >? 5))%Z with false
    by (symmetry; apply orb_false_iff; lia).
  destruct h as [w [s b lr nr hist]].
  cbv beta iota zeta delta
    [bind with_clock utcnow get modify lift ret on_card sys card_data
     strength box last_review next_review history
     set_strength set_box set_last_review set_next_review set_history
     history_append reviewed_strength reviewed_box reviewed_entry
     half_updated fully_updated entries].
  destruct (schedule_next_review _ _) as [e | next]; [reflexivity |].
  destruct hist; reflexivity.
Qed.

End ReviewUpdate.

(** ** The scheduler *)

Section Scheduler.

Local Open Scope R_scope.

Lemma IZR_US_PER_DAY : IZR US_PER_DAY = 86400000000.
Proof. reflexivity. Qed.

Lemma interval_days_floor (s : R) : MIN_INTERVAL_DAYS <= interval_days s.
Proof. apply Rmax_r. Qed.

Lemma interval_us_floor (s : R) : (HALF_DAY_US <= interval_us s)%Z.
Proof.
  apply round_half_even_lower. rewrite IZR_US_PER_DAY.
  pose proof (interval_days_floor s) as H.
  unfold MIN_INTERVAL_DAYS, HALF_DAY_US in *. lra.
Qed.

Lemma in_range_iff (d : datetime) :
  in_range d = true <-> (0 <= ticks d < MAXORDINAL * US_PER_DAY)%Z.
Proof.
  unfold in_range. rewrite andb_true_iff, Z.leb_le, Z.ltb_lt. tauto.
Qed.

(** The scheduler returns exactly when the scheduled time is a
    representable datetime; otherwise the library raises. *)
Lemma schedule_next_review_cases (s : R) (now : datetime) :
  (0 <= ticks now)%Z ->
  let next_dt := DT (ticks now + interval_us s) in
  if in_range next_dt
  then schedule_next_review s now = inr (isoformat next_dt)
  else exists msg, schedule_next_review s now = inl (OverflowError msg).
Proof.
  intros Hnow next_dt.
  pose proof (interval_us_floor s) as Hfloor. unfold HALF_DAY_US in Hfloor.
  unfold schedule_next_review, timedelta_days. fold (interval_days s).
  fold (interval_us s).
  destruct (Z.abs (interval_us s / US_PER_DAY) >? MAX_DELTA_DAYS)%Z eqn:Hbig.
  - assert (Hout : in_range next_dt = false).
    { apply not_true_is_false. rewrite in_range_iff. subst next_dt.
      apply Z.gtb_lt in Hbig. cbn [ticks].
      unfold MAX_DELTA_DAYS, MAXORDINAL, US_PER_DAY, US_PER_SECOND in *.
      Z.div_mod_to_equations. lia. }
    rewrite Hout. eauto.
  - unfold add. cbn [total_us]. fold next_dt.
    destruct (in_range next_dt); eauto.
Qed.

Lemma schedule_next_review_returns (s : R) (now : datetime) :
  (0 <= ticks now)%Z ->
  in_range (DT (ticks now + interval_us s)) = true ->
  schedule_next_review s now = inr (isoformat (DT (ticks now + interval_us s))).
Proof.
  intros Hnow Hin. pose proof (schedule_next_review_cases s now Hnow) as H.
  cbv zeta in H. rewrite Hin in H. exact H.
Qed.

(** Short intervals are lifted to half a day exactly. *)
Lemma interval_us_half_day (s : R) :
  interval_us s = HALF_DAY_US
  <-> - s * ln RETENTION_TARGET <= 1 / 2 + 1 / 172800000000.
Proof.
  unfold interval_us. rewrite round_half_even_even by reflexivity.
  rewrite IZR_US_PER_DAY. unfold HALF_DAY_US.
  pose proof (interval_days_floor s) as Hfloor.
  unfold interval_days, MIN_INTERVAL_DAYS in *.
  unfold Rmax in *.
  destruct (Rle_dec (- s * ln RETENTION_TARGET) 0.5); split; intros; lra.
Qed.

(** Strengths up to 2.5 are scheduled half a day out. *)
Lemma interval_us_weak (s : R) :
  0 < s <= 5 / 2 -> interval_us s = HALF_DAY_US.
Proof.
  intros [Hs Hle]. apply interval_us_half_day.
  pose proof ln_RETENTION_TARGET_bounds as [Hlo Hhi].
  assert (s * - ln RETENTION_TARGET <= 5 / 2 * (1 / 5)).
  { apply Rmult_le_compat; lra. }
  lra.
Qed.

End Scheduler.

(* ================================================================== *)
(** * The claims of the specification *)

Section Claims.

Local Open Scope R_scope.

Lemma dict_get_spec_multiplier (q : Z) (m : R) :
  spec_multiplier q = Some m -> dict_get QUALITY_MULTIPLIER q 1.0 = m.
Proof.
  intros H.
  destruct q as [| p | p]; [| | discriminate].
  - injection H as <-. cbn. lra.
  - repeat (destruct p as [p | p |]; try discriminate);
      injection H as <-; cbn; lra.
Qed.

Lemma post_strength (q : Z) (h : Heap) :
  (0 <= q <= 5)%Z ->
  strength (card_data (snd (update_card_on_review q h)))
  = reviewed_strength (card_data h) q.
Proof.
  intros Hq. rewrite update_card_on_review_valid by exact Hq. cbv zeta.
  destruct (schedule_next_review _ _); reflexivity.
Qed.

Lemma post_box (q : Z) (h : Heap) :
  (0 <= q <= 5)%Z ->
  box (card_data (snd (update_card_on_review q h)))
  = reviewed_box (card_data h) q.
Proof.
  intros Hq. rewrite update_card_on_review_valid by exact Hq. cbv zeta.
  destruct (schedule_next_review _ _); reflexivity.
Qed.

(** A returned card is the dict object itself, as the call leaves it. *)
Lemma returned_card_is_card_data (q : Z) (h h' : Heap) (c : Card) :
  update_card_on_review q h = (inr c, h') -> c = card_data h'.
Proof.
  intros H.
  destruct (Z_lt_dec q 0) as [L | L];
    [rewrite update_card_on_review_invalid in H by lia; discriminate |].
  destruct (Z_lt_dec 5 q) as [G | G];
    [rewrite update_card_on_review_invalid in H by lia; discriminate |].
  rewrite update_card_on_review_valid in H by lia. cbv zeta in H.
  destruct (schedule_next_review _ _); inversion H. reflexivity.
Qed.

(** C1: for a card of strength [s > 0] and a quality [q] in 0..5, the review
    sets the strength to [max(0.1, s * m(q))] with [m] the table of the
    specification, plus the flat bonus [0.2] when [q] is exactly 5, added
    after the floor. *)
Theorem C1_strength_update (h : Heap) (q : Z) (m : R) :
  0 < strength (card_data h) ->
  (0 <= q <= 5)%Z ->
  spec_multiplier q = Some m ->
  let s := strength (card_data h) in
  let h' := snd (update_card_on_review q h) in
  strength (card_data h')
  = if (q =? 5)%Z then Rmax 0.1 (s * m) + 0.2 else Rmax 0.1 (s * m).
Proof.
  intros _ Hq Hm s h'. subst h'. rewrite post_strength by exact Hq.
  unfold reviewed_strength. rewrite (dict_get_spec_multiplier q m Hm).
  reflexivity.
Qed.

Lemma C1_strength_update_witness :
  0 < strength (card_data fresh_heap)
  /\ (0 <= 5 <= 5)%Z
  /\ spec_multiplier 5 = Some 1.30
  /\ strength (card_data (snd (update_card_on_review 5 fresh_heap)))
     = Rmax 0.1 (strength (card_data fresh_heap) * 1.30) + 0.2.
Proof.
  assert (H0 : 0 < strength (card_data fresh_heap))
    by (cbn; unfold DEFAULT_STRENGTH; lra).
  assert (H1 : (0 <= 5 <= 5)%Z) by lia.
  assert (H2 : spec_multiplier 5 = Some 1.30) by reflexivity.
  repeat split; try assumption; try lia.
  exact (C1_strength_update fresh_heap 5 1.30 H0 H1 H2).
Defined.

(** C2: for a card in box [b] and a quality [q] in 0..5, the review moves
    the card to box [min(5, b + 1)] when [q >= 4], to box 1 when [q <= 2],
    and leaves it in [b] when [q = 3]; the new box is the same for any two
    cards in the same box, whatever their strength. *)
Theorem C2_box_transition (h : Heap) (q : Z) :
  (0 <= q <= 5)%Z ->
  let b := box (card_data h) in
  let new_box := fun h0 => box (card_data (snd (update_card_on_review q h0))) in
  ((4 <= q)%Z -> new_box h = Z.min 5 (b + 1))
  /\ ((q <= 2)%Z -> new_box h = 1%Z)
  /\ (q = 3%Z -> new_box h = b)
  /\ (forall h2 : Heap, box (card_data h2) = b -> new_box h2 = new_box h).
Proof.
  intros Hq b new_box. subst new_box. cbv beta.
  rewrite post_box by exact Hq. unfold reviewed_box. fold b.
  repeat split.
  - intros H. destruct (Z.geb_spec q 4); [reflexivity | lia].
  - intros H. destruct (Z.geb_spec q 4); [lia |].
    destruct (Z.leb_spec q 2); [reflexivity | lia].
  - intros ->. reflexivity.
  - intros h2 Hb. rewrite post_box by exact Hq. unfold reviewed_box.
    rewrite Hb. reflexivity.
Qed.

Lemma C2_box_transition_witness :
  (0 <= 5 <= 5)%Z
  /\ box (card_data (snd (update_card_on_review 5 fresh_heap))) = 2%Z.
Proof.
  assert (Hq : (0 <= 5 <= 5)%Z) by lia.
  split; [exact Hq |].
  destruct (C2_box_transition fresh_heap 5 Hq) as [H _].
  rewrite H by lia. reflexivity.
Defined.

(** C3: the review fails with the invalid-quality error exactly when the
    quality is outside 0..5, and a call that fails so leaves the state as it
    found it: the card (strength, box, last_review, next_review, history)
    is unchanged and the clock has not been read. *)
Theorem C3_invalid_quality (q : Z) (h : Heap) :
  let out := update_card_on_review q h in
  (fst out = inl InvalidQuality <-> (q < 0 \/ 5 < q)%Z)
  /\ (fst out = inl InvalidQuality -> snd out = h)
  /\ ((q < 0 \/ 5 < q)%Z -> out = (inl InvalidQuality, h)).
Proof.
  cbv zeta.
  assert (Hiff : fst (update_card_on_review q h) = inl InvalidQuality
                 <-> (q < 0 \/ 5 < q)%Z).
  { split.
    - intros H.
      destruct (Z_lt_dec q 0) as [L | L]; [lia |].
      destruct (Z_lt_dec 5 q) as [G | G]; [lia |].
      rewrite update_card_on_review_valid in H by lia. cbv zeta in H.
      unfold schedule_next_review, timedelta_days, add in H.
      repeat match type of H with
             | context [if ?b then _ else _] => destruct b
             end; discriminate.
    - intros H. rewrite update_card_on_review_invalid by exact H.
      reflexivity. }
  split; [exact Hiff |]. split.
  - intros H. apply Hiff in H.
    rewrite update_card_on_review_invalid by exact H. reflexivity.
  - apply update_card_on_review_invalid.
Qed.

Lemma C3_invalid_quality_witness :
  update_card_on_review 6 fresh_heap = (inl InvalidQuality, fresh_heap)
  /\ update_card_on_review (-1) fresh_heap = (inl InvalidQuality, fresh_heap).
Proof.
  split.
  - apply (C3_invalid_quality 6 fresh_heap). lia.
  - apply (C3_invalid_quality (-1) fresh_heap). lia.
Defined.

(** ** Retention *)

Lemma calculate_retention_falsy (s : R) (lr : option string) (w : World) :
  truthy lr = false -> calculate_retention s lr w = (inr 0, w).
Proof.
  intros H. unfold calculate_retention. rewrite H. cbn. unfold ret.
  do 2 f_equal. lra.
Qed.

Lemma calculate_retention_parsed (s : R) (str : string) (last_dt : datetime)
    (w : World) :
  fromisoformat str = inr last_dt ->
  calculate_retention s (Some str) w
  = (math_exp (- elapsed_days (current_time w) last_dt / Rmax 1e-6 s),
     tick w).
Proof.
  intros H. destruct str as [| a str']; [discriminate |].
  unfold calculate_retention. cbn [truthy negb].
  unfold bind, lift, utcnow. rewrite H.
  unfold elapsed_days, total_seconds, sub. cbn [total_us].
  do 2 f_equal. unfold US_PER_SECOND. lra.
Qed.

Lemma calculate_retention_returns (s : R) (str : string) (last_dt : datetime)
    (w : World) :
  fromisoformat str = inr last_dt ->
  - elapsed_days (current_time w) last_dt / Rmax 1e-6 s <= 709 ->
  calculate_retention s (Some str) w
  = (inr (exp (- elapsed_days (current_time w) last_dt / Rmax 1e-6 s)),
     tick w).
Proof.
  intros H Hx. rewrite (calculate_retention_parsed s str last_dt w H).
  rewrite math_exp_below by exact Hx. reflexivity.
Qed.

(** C4, as the specification states it, fails: with a [last_review] one day
    ahead of the clock and a strength of one thousandth the exponent is
    1000, and [math.exp] raises instead of returning. *)
Lemma C4_counterexample :
  fromisoformat FUTURE = inr NEXT_DAY
  /\ calculate_retention FLEETING (Some FUTURE) (frozen_clock NEW_YEAR)
     = (inl (OverflowError "math range error"), tick (frozen_clock NEW_YEAR)).
Proof.
  assert (Hp : fromisoformat FUTURE = inr NEXT_DAY) by (vm_compute; reflexivity).
  split; [exact Hp |].
  rewrite (calculate_retention_parsed FLEETING FUTURE NEXT_DAY _ Hp).
  f_equal. apply math_exp_raises. unfold elapsed_days, FLEETING.
  change (current_time (frozen_clock NEW_YEAR)) with NEW_YEAR.
  replace (IZR (ticks NEW_YEAR - ticks NEXT_DAY))
    with (- 86400000000) by (vm_compute; reflexivity).
  rewrite Rmax_right by lra. lra.
Qed.

(** C4: the predicted retention is exactly 0.0 when [last_review] is absent.
    For a [last_review] that is a timestamp in the form [isoformat] writes,
    with [t_days] the time from [last_review] to the current time in
    fractional days and [x = -t_days / max(1e-6, strength)], the call
    returns [exp(x)] when [x] is at most 709, which covers every
    [last_review] that is not in the future; when [x] is 710 or more it
    raises [OverflowError], after reading the clock. *)
Theorem C4_retention_formula (s : R) (w : World) :
  calculate_retention s None w = (inr 0, w)
  /\ (forall (str : string) (last_dt : datetime),
        fromisoformat str = inr last_dt ->
        let t_days := elapsed_days (current_time w) last_dt in
        let x := - t_days / Rmax 1e-6 s in
        (x <= 709 ->
         calculate_retention s (Some str) w = (inr (exp x), tick w))
        /\ (710 <= x ->
            calculate_retention s (Some str) w
            = (inl (OverflowError "math range error"), tick w))).
Proof.
  split.
  - apply calculate_retention_falsy. reflexivity.
  - intros str last_dt H t_days x. split; intros Hx.
    + apply calculate_retention_returns; assumption.
    + rewrite (calculate_retention_parsed s str last_dt w H).
      fold t_days. fold x. rewrite math_exp_raises by exact Hx. reflexivity.
Qed.

Lemma C4_retention_formula_witness :
  fromisoformat EVE = inr (DT (ticks NEW_YEAR - US_PER_DAY))
  /\ - elapsed_days (current_time (frozen_clock NEW_YEAR))
        (DT (ticks NEW_YEAR - US_PER_DAY)) / Rmax 1e-6 1 <= 709
  /\ calculate_retention 1 (Some EVE) (frozen_clock NEW_YEAR)
     = (inr (exp (- elapsed_days (current_time (frozen_clock NEW_YEAR))
                      (DT (ticks NEW_YEAR - US_PER_DAY))
                  / Rmax 1e-6 1)),
        tick (frozen_clock NEW_YEAR)).
Proof.
  assert (H : fromisoformat EVE = inr (DT (ticks NEW_YEAR - US_PER_DAY)))
    by (vm_compute; reflexivity).
  assert (Hx : - elapsed_days (current_time (frozen_clock NEW_YEAR))
                 (DT (ticks NEW_YEAR - US_PER_DAY)) / Rmax 1e-6 1 <= 709).
  { unfold elapsed_days.
    replace (IZR (ticks (current_time (frozen_clock NEW_YEAR))
                  - ticks (DT (ticks NEW_YEAR - US_PER_DAY))))
      with 86400000000 by (vm_compute; reflexivity).
    rewrite Rmax_right by lra. lra. }
  split; [exact H |]. split; [exact Hx |].
  exact (proj1 (proj2 (C4_retention_formula 1 (frozen_clock NEW_YEAR))
                  EVE _ H) Hx).
Defined.

(** C10: with the empty string as [last_review] the result is exactly 0.0,
    for every strength: a falsy value is handled as an absent one, the
    clock is not read and the string is not parsed (parsing it would
    raise). *)
Theorem C10_empty_last_review (s : R) (w : World) :
  calculate_retention s (Some EmptyString) w = (inr 0, w)
  /\ calculate_retention s (Some EmptyString) w = calculate_retention s None w
  /\ (exists e : exn, fromisoformat EmptyString = inl e).
Proof.
  split; [| split].
  - apply calculate_retention_falsy. reflexivity.
  - rewrite !calculate_retention_falsy by reflexivity. reflexivity.
  - eexists. vm_compute. reflexivity.
Qed.

Lemma Rmax_epsilon_pos (s : R) : 0 < Rmax 1e-6 s.
Proof.
  apply Rlt_le_trans with 1e-6; [lra | apply Rmax_l].
Qed.

Lemma elapsed_days_nonneg (now last_dt : datetime) :
  (ticks last_dt <= ticks now)%Z -> 0 <= elapsed_days now last_dt.
Proof.
  intros H. unfold elapsed_days.
  assert (0 <= IZR (ticks now - ticks last_dt)) by (apply IZR_le; lia).
  lra.
Qed.

(** C8, as the specification states it, fails: a [last_review] later than
    the clock gives a retention above 1. *)
Lemma C8_counterexample :
  0 < 1
  /\ calculate_retention 1 (Some FUTURE) (frozen_clock NEW_YEAR)
     = (inr (exp 1), tick (frozen_clock NEW_YEAR))
  /\ ~ (0 <= exp 1 <= 1).
Proof.
  split; [lra |]. split.
  - assert (Hx : - elapsed_days (current_time (frozen_clock NEW_YEAR)) NEXT_DAY
                   / Rmax 1e-6 1 = 1).
    { unfold elapsed_days.
      change (current_time (frozen_clock NEW_YEAR)) with NEW_YEAR.
      replace (IZR (ticks NEW_YEAR - ticks NEXT_DAY))
        with (- 86400000000) by (vm_compute; reflexivity).
      rewrite Rmax_right by lra. lra. }
    rewrite (calculate_retention_returns 1 FUTURE NEXT_DAY)
      by (try (vm_compute; reflexivity); rewrite Hx; lra).
    rewrite Hx. reflexivity.
  - intros [_ H]. pose proof (exp_ineq1 1). lra.
Qed.

(** C8: for every strength [s > 0] the predicted retention lies in [0, 1]
    when [last_review] is absent or empty (it is then 0) and when it is a
    timestamp that is not later than the current time. *)
Theorem C8_retention_range (s : R) (lr : option string) (w : World) :
  0 < s ->
  (truthy lr = false ->
   exists r : R, calculate_retention s lr w = (inr r, w) /\ 0 <= r <= 1)
  /\ (forall (str : string) (last_dt : datetime),
        lr = Some str ->
        fromisoformat str = inr last_dt ->
        (ticks last_dt <= ticks (current_time w))%Z ->
        exists r : R,
          calculate_retention s lr w = (inr r, tick w) /\ 0 <= r <= 1).
Proof.
  intros Hs. split.
  - intros H. exists 0.
    split; [apply calculate_retention_falsy; exact H | lra].
  - intros str last_dt -> Hp Hle.
    pose proof (elapsed_days_nonneg _ _ Hle) as Ht.
    pose proof (Rmax_epsilon_pos s) as Hd.
    set (t := elapsed_days (current_time w) last_dt) in *.
    set (d := Rmax 1e-6 s) in *.
    assert (Hq : 0 <= t * / d).
    { apply Rmult_le_pos; [exact Ht | left; apply Rinv_0_lt_compat; exact Hd]. }
    assert (Hx : - t / d <= 0) by (unfold Rdiv; lra).
    rewrite (calculate_retention_returns s str last_dt w Hp)
      by (fold t; fold d; lra).
    fold t. fold d.
    eexists. split; [reflexivity |]. split; [left; apply exp_pos |].
    destruct Hx as [Hx | Hx].
    + apply exp_increasing in Hx. rewrite exp_0 in Hx. lra.
    + rewrite Hx, exp_0. lra.
Qed.

Lemma C8_retention_range_witness :
  0 < 1
  /\ fromisoformat EVE = inr (DT (ticks NEW_YEAR - US_PER_DAY))
  /\ (ticks (DT (ticks NEW_YEAR - US_PER_DAY))
      <= ticks (current_time (frozen_clock NEW_YEAR)))%Z
  /\ exists r : R,
       calculate_retention 1 (Some EVE) (frozen_clock NEW_YEAR)
       = (inr r, tick (frozen_clock NEW_YEAR)) /\ 0 <= r <= 1.
Proof.
  assert (H0 : 0 < 1) by lra.
  assert (H1 : fromisoformat EVE = inr (DT (ticks NEW_YEAR - US_PER_DAY)))
    by (vm_compute; reflexivity).
  assert (H2 : (ticks (DT (ticks NEW_YEAR - US_PER_DAY))
                <= ticks (current_time (frozen_clock NEW_YEAR)))%Z)
    by (vm_compute; discriminate).
  repeat split; try assumption.
  exact (proj2 (C8_retention_range 1 (Some EVE) (frozen_clock NEW_YEAR) H0)
           EVE _ eq_refl H1 H2).
Defined.

(** ** Scheduling *)

Lemma interval_days_spec (s : R) :
  interval_days s = Rmax 0.5 (- s * ln 0.85).
Proof.
  unfold interval_days, MIN_INTERVAL_DAYS, RETENTION_TARGET. apply Rmax_comm.
Qed.

Lemma interval_us_spec (s : R) :
  interval_us s = round_half_even (Rmax 0.5 (- s * ln 0.85) * 86400000000).
Proof.
  unfold interval_us. rewrite interval_days_spec, IZR_US_PER_DAY. reflexivity.
Qed.

Lemma schedule_STRONG :
  schedule_next_review STRONG NEW_YEAR
  = inl (OverflowError "date value out of range").
Proof.
  pose proof ln_RETENTION_TARGET_bounds as [Hlo Hhi].
  assert (Hd : 15000000 <= interval_days STRONG <= 20000000).
  { unfold interval_days, STRONG, MIN_INTERVAL_DAYS.
    rewrite Rmax_left by lra. lra. }
  assert (Hl : (1296000000000000000 <= interval_us STRONG)%Z).
  { apply round_half_even_lower. rewrite IZR_US_PER_DAY. lra. }
  assert (Hu : (interval_us STRONG <= 1728000000000000000)%Z).
  { apply round_half_even_upper. rewrite IZR_US_PER_DAY. lra. }
  unfold schedule_next_review, timedelta_days.
  fold (interval_days STRONG). fold (interval_us STRONG).
  destruct (Z.gtb_spec (Z.abs (interval_us STRONG / US_PER_DAY)) MAX_DELTA_DAYS)
    as [Hbig | _].
  - exfalso. revert Hbig.
    unfold MAX_DELTA_DAYS, US_PER_DAY, US_PER_SECOND.
    Z.div_mod_to_equations. lia.
  - unfold add. cbn [total_us].
    replace (in_range (DT (ticks NEW_YEAR + interval_us STRONG))) with false;
      [reflexivity |].
    symmetry. apply not_true_is_false. rewrite in_range_iff.
    unfold NEW_YEAR, MAXORDINAL, US_PER_DAY, US_PER_SECOND. cbn [ticks]. lia.
Qed.

Lemma TIGHT_interval :
  1 / 2 < - TIGHT * ln RETENTION_TARGET <= 1 / 2 + 1 / 172800000000.
Proof.
  pose proof ln_085_digits as [Hlo Hhi].
  unfold TIGHT, RETENTION_TARGET. lra.
Qed.

Lemma schedule_TIGHT :
  schedule_next_review TIGHT NEW_YEAR = inr "2026-01-01T12:00:00"%string.
Proof.
  assert (Hus : interval_us TIGHT = HALF_DAY_US).
  { apply interval_us_half_day. pose proof TIGHT_interval. lra. }
  rewrite schedule_next_review_returns; rewrite ?Hus;
    [| vm_compute; discriminate | vm_compute; reflexivity].
  vm_compute. reflexivity.
Qed.

(** C5, as the specification states it, fails twice.  A large strength puts
    the scheduled time after the last representable datetime and the call
    raises instead of returning; and an interval that exceeds half a day by
    less than half a microsecond is scheduled exactly half a day out. *)
Lemma C5_counterexample :
  (0 < STRONG
   /\ schedule_next_review STRONG NEW_YEAR
      = inl (OverflowError "date value out of range"))
  /\ (0 < TIGHT
      /\ ~ (- TIGHT * ln 0.85 <= 0.5)
      /\ schedule_next_review TIGHT NEW_YEAR
         = inr (isoformat (DT (ticks NEW_YEAR + HALF_DAY_US)))).
Proof.
  split; [split; [unfold STRONG; lra | exact schedule_STRONG] |].
  split; [unfold TIGHT; lra |]. split.
  - pose proof TIGHT_interval as H. unfold RETENTION_TARGET in H. lra.
  - rewrite schedule_TIGHT. vm_compute. reflexivity.
Qed.

(** C5: for every strength [s > 0] and timestamp [now] such that [now] plus
    [max(0.5, -s * ln(0.85))] days stays a day or more inside the
    representable datetimes, the scheduler returns a timestamp that is
    [now] plus that many days up to rounding (within a microsecond plus one
    part in 10^12 of the interval).  The returned time is at least half a
    day after [now]; it is exactly half a day after [now] whenever
    [-s * ln(0.85) <= 0.5], and only when [-s * ln(0.85)] exceeds half a
    day by at most a microsecond. *)
Theorem C5_schedule_next_review (s : R) (now : datetime) :
  0 < s ->
  in_range now = true ->
  let t_days := Rmax 0.5 (- s * ln 0.85) in
  IZR (ticks now) + t_days * 86400000000 + 86400000000
  <= 315537897600000000 ->
  exists next_dt : datetime,
    schedule_next_review s now = inr (isoformat next_dt)
    /\ Rabs (IZR (ticks next_dt - ticks now) - t_days * 86400000000)
       <= 1 + t_days * 86400000000 / 1000000000000
    /\ (ticks now + HALF_DAY_US <= ticks next_dt)%Z
    /\ (- s * ln 0.85 <= 0.5 -> ticks next_dt = (ticks now + HALF_DAY_US)%Z)
    /\ (ticks next_dt = (ticks now + HALF_DAY_US)%Z
        -> - s * ln 0.85 <= 0.5 + 1 / 86400000000).
Proof.
  intros Hs Hnow t_days Hslack.
  apply in_range_iff in Hnow.
  pose proof (interval_us_floor s) as Hfloor.
  pose proof (interval_us_half_day s) as Hhalf.
  unfold RETENTION_TARGET in Hhalf.
  pose proof (round_half_even_near (t_days * 86400000000)) as Hnear.
  subst t_days. rewrite <- interval_us_spec in Hnear.
  set (t_days := Rmax 0.5 (- s * ln 0.85)) in *.
  assert (Ht : 0.5 <= t_days) by apply Rmax_l.
  assert (Hin : in_range (DT (ticks now + interval_us s)) = true).
  { apply in_range_iff. cbn [ticks]. split; [unfold HALF_DAY_US in *; lia |].
    apply lt_IZR. rewrite plus_IZR.
    replace (IZR (MAXORDINAL * US_PER_DAY)) with 315537897600000000
      by (vm_compute; reflexivity).
    lra. }
  exists (DT (ticks now + interval_us s)). cbn [ticks].
  split; [apply schedule_next_review_returns; [lia | exact Hin] |].
  split.
  { replace (ticks now + interval_us s - ticks now)%Z with (interval_us s)
      by lia.
    apply Rabs_le. lra. }
  split; [lia |]. split.
  - intros H. assert (E : interval_us s = HALF_DAY_US) by (apply Hhalf; lra).
    lia.
  - intros H. assert (E : interval_us s = HALF_DAY_US) by lia.
    apply Hhalf in E. lra.
Qed.

Lemma C5_schedule_next_review_witness :
  0 < DEFAULT_STRENGTH
  /\ in_range NEW_YEAR = true
  /\ IZR (ticks NEW_YEAR)
     + Rmax 0.5 (- DEFAULT_STRENGTH * ln 0.85) * 86400000000 + 86400000000
     <= 315537897600000000
  /\ exists next_dt : datetime,
       schedule_next_review DEFAULT_STRENGTH NEW_YEAR
       = inr (isoformat next_dt)
       /\ (ticks NEW_YEAR + HALF_DAY_US <= ticks next_dt)%Z.
Proof.
  assert (H0 : 0 < DEFAULT_STRENGTH) by (unfold DEFAULT_STRENGTH; lra).
  assert (H1 : in_range NEW_YEAR = true) by (vm_compute; reflexivity).
  assert (H2 : IZR (ticks NEW_YEAR)
               + Rmax 0.5 (- DEFAULT_STRENGTH * ln 0.85) * 86400000000
               + 86400000000
               <= 315537897600000000).
  { pose proof ln_RETENTION_TARGET_bounds as [Hlo Hhi].
    unfold RETENTION_TARGET in Hlo, Hhi. unfold DEFAULT_STRENGTH.
    rewrite Rmax_left by lra.
    replace (IZR (ticks NEW_YEAR)) with 63902822400000000
      by (vm_compute; reflexivity).
    lra. }
  split; [exact H0 |]. split; [exact H1 |]. split; [exact H2 |].
  destruct (C5_schedule_next_review DEFAULT_STRENGTH NEW_YEAR H0 H1 H2)
    as (next_dt & Hret & _ & Hge & _).
  exists next_dt. split; assumption.
Defined.

(** ** Reviews that return *)

(** A review that leaves a strength of at most 2.5 is scheduled half a day
    after the clock reading, and returns when that is a datetime. *)
Lemma update_card_on_review_weak (q : Z) (h : Heap) :
  (0 <= q <= 5)%Z ->
  reviewed_strength (card_data h) q <= 5 / 2 ->
  let now := current_time (sys h) in
  let next_dt := DT (ticks now + HALF_DAY_US) in
  (0 <= ticks now)%Z ->
  in_range next_dt = true ->
  let c := fully_updated (card_data h) q now (isoformat next_dt) in
  update_card_on_review q h
  = (inr c, {| sys := tick (sys h); card_data := c |}).
Proof.
  intros Hq Hs now next_dt Hnow Hin c.
  rewrite update_card_on_review_valid by exact Hq. cbv zeta. fold now.
  assert (Hpos : 0 < reviewed_strength (card_data h) q).
  { unfold reviewed_strength.
    pose proof (Rmax_l 0.1 (strength (card_data h)
                            * dict_get QUALITY_MULTIPLIER q 1.0)).
    destruct (q =? 5)%Z; lra. }
  rewrite schedule_next_review_returns;
    rewrite ?interval_us_weak by lra; auto.
Qed.

Lemma first_review :
  update_card_on_review 5 fresh_heap
  = (inr (card_data reviewed_once), reviewed_once).
Proof.
  rewrite update_card_on_review_weak.
  - reflexivity.
  - lia.
  - unfold reviewed_strength. cbn. unfold DEFAULT_STRENGTH.
    rewrite Rmax_right by lra. lra.
  - vm_compute. discriminate.
  - vm_compute. reflexivity.
Qed.

Lemma second_review :
  update_card_on_review 1 reviewed_once
  = (inr (card_data reviewed_twice), reviewed_twice).
Proof.
  rewrite update_card_on_review_weak.
  - reflexivity.
  - lia.
  - unfold reviewed_strength. cbn. unfold DEFAULT_STRENGTH.
    rewrite (Rmax_right 0.1 (1.0 * 1.30)) by lra.
    rewrite Rmax_right by lra. lra.
  - vm_compute. discriminate.
  - vm_compute. reflexivity.
Qed.

(** The two scenarios of the specification: strength 1.0 in box 1 reviewed
    with quality 5, and strength 2.0 in box 3 reviewed with quality 1. *)
Example scenario_perfect_recall :
  strength (card_data reviewed_once) = 1.5
  /\ box (card_data reviewed_once) = 2%Z
  /\ next_review (card_data reviewed_once) = Some NOON.
Proof.
  repeat split. cbn. unfold DEFAULT_STRENGTH.
  rewrite Rmax_right by lra. lra.
Qed.

Example scenario_poor_recall (c : Card) :
  strength c = 2.0 -> box c = 3%Z ->
  reviewed_strength c 1 = 1.2 /\ reviewed_box c 1 = 1%Z.
Proof.
  intros Hs Hb. unfold reviewed_strength, reviewed_box. rewrite Hs. cbn.
  rewrite Rmax_right by lra. split; [lra | reflexivity].
Qed.

(** A call that returns was given a valid quality. *)
Lemma returned_quality_valid (q : Z) (h h' : Heap) (c : Card) :
  update_card_on_review q h = (inr c, h') -> (0 <= q <= 5)%Z.
Proof.
  intros H.
  destruct (Z_lt_dec q 0) as [L | L];
    [rewrite update_card_on_review_invalid in H by lia; discriminate |].
  destruct (Z_lt_dec 5 q) as [G | G];
    [rewrite update_card_on_review_invalid in H by lia; discriminate |].
  lia.
Qed.

Lemma reviewed_strength_floor (c : Card) (q : Z) :
  0.1 <= reviewed_strength c q.
Proof.
  unfold reviewed_strength.
  pose proof (Rmax_l 0.1 (strength c * dict_get QUALITY_MULTIPLIER q 1.0)).
  destruct (q =? 5)%Z; lra.
Qed.

Lemma reviewed_box_range (c : Card) (q : Z) :
  (1 <= box c <= 5)%Z -> (1 <= reviewed_box c q <= 5)%Z.
Proof.
  intros H. unfold reviewed_box, BOX_COUNT.
  destruct (q >=? 4)%Z; [lia |]. destruct (q <=? 2)%Z; lia.
Qed.

(** One returning review keeps the box in range and floors the strength. *)
Lemma review_step_invariant (q : Z) (h h' : Heap) (c : Card) :
  update_card_on_review q h = (inr c, h') ->
  (1 <= box (card_data h) <= 5)%Z ->
  (1 <= box (card_data h') <= 5)%Z /\ 0.1 <= strength (card_data h').
Proof.
  intros H Hb. pose proof (returned_quality_valid q h h' c H) as Hq.
  pose proof (post_box q h Hq) as Ebox.
  pose proof (post_strength q h Hq) as Estr.
  rewrite H in Ebox, Estr. cbn [snd] in Ebox, Estr.
  rewrite Ebox, Estr. split.
  - apply reviewed_box_range. exact Hb.
  - apply reviewed_strength_floor.
Qed.

(** C6: along every sequence of reviews that all return, started from a card
    with box in 1..5 and strength above 0, the card after every step has its
    box in 1..5 and a strength of at least 0.1. *)
Theorem C6_invariants (h : Heap) (states : list Heap) :
  (1 <= box (card_data h) <= 5)%Z ->
  0 < strength (card_data h) ->
  review_run h states ->
  Forall (fun h' : Heap =>
            (1 <= box (card_data h') <= 5)%Z /\ 0.1 <= strength (card_data h'))
         states.
Proof.
  intros Hb _ Hrun. induction Hrun as [h | h h' q c rest Hstep Hrest IH].
  - constructor.
  - pose proof (review_step_invariant q h h' c Hstep Hb) as Hinv.
    constructor; [exact Hinv |]. apply IH. exact (proj1 Hinv).
Qed.

Lemma C6_invariants_witness :
  (1 <= box (card_data fresh_heap) <= 5)%Z
  /\ 0 < strength (card_data fresh_heap)
  /\ review_run fresh_heap [reviewed_once; reviewed_twice]
  /\ Forall (fun h' : Heap =>
               (1 <= box (card_data h') <= 5)%Z
               /\ 0.1 <= strength (card_data h'))
            [reviewed_once; reviewed_twice].
Proof.
  assert (H0 : (1 <= box (card_data fresh_heap) <= 5)%Z) by (cbn; lia).
  assert (H1 : 0 < strength (card_data fresh_heap))
    by (cbn; unfold DEFAULT_STRENGTH; lra).
  assert (H2 : review_run fresh_heap [reviewed_once; reviewed_twice]).
  { eapply run_step; [exact first_review |].
    eapply run_step; [exact second_review |]. apply run_done. }
  repeat split; try assumption; try (cbn; lia).
  exact (C6_invariants fresh_heap _ H0 H1 H2).
Defined.

(** ** One clock reading per review *)

(** C7: a review that returns has read the clock once and used that one
    reading throughout: [last_review] is that reading, [next_review] is the
    schedule computed from the updated strength at that reading, and the
    history is the old one (empty when the key was missing) with exactly one
    entry added at its end, made of the reading, the quality and the old and
    new strength and box. *)
Theorem C7_single_sample (q : Z) (h h' : Heap) (c : Card) :
  update_card_on_review q h = (inr c, h') ->
  let now := current_time (sys h) in
  let old := card_data h in
  sys h' = tick (sys h)
  /\ c = card_data h'
  /\ last_review c = Some (isoformat now)
  /\ (exists next : string,
        schedule_next_review (strength c) now = inr next
        /\ next_review c = Some next)
  /\ history c
     = Some (entries old
             ++ [ {| HistoryEntry.time := isoformat now;
                     HistoryEntry.quality := q;
                     HistoryEntry.old_strength := strength old;
                     HistoryEntry.old_box := box old;
                     HistoryEntry.new_strength := strength c;
                     HistoryEntry.new_box := box c |} ])
  /\ length (entries c) = S (length (entries old)).
Proof.
  intros H now old.
  pose proof (returned_quality_valid q h h' c H) as Hq.
  rewrite update_card_on_review_valid in H by exact Hq. cbv zeta in H.
  fold now old in H.
  destruct (schedule_next_review (reviewed_strength old q) now)
    as [e | next] eqn:Hnext; [discriminate |].
  injection H as <- <-. cbn [sys card_data].
  repeat split.
  - exists next. split; [exact Hnext | reflexivity].
  - unfold entries at 1. cbn [history fully_updated].
    rewrite length_app. cbn [length]. lia.
Qed.

Lemma C7_single_sample_witness :
  update_card_on_review 5 fresh_heap
  = (inr (card_data reviewed_once), reviewed_once)
  /\ sys reviewed_once = tick (sys fresh_heap)
  /\ last_review (card_data reviewed_once) = Some (isoformat NEW_YEAR)
  /\ length (entries (card_data reviewed_once))
     = S (length (entries (card_data fresh_heap))).
Proof.
  split; [exact first_review |].
  pose proof (C7_single_sample 5 fresh_heap reviewed_once
                (card_data reviewed_once) first_review) as H.
  cbv zeta in H. destruct H as (H1 & _ & H3 & _ & _ & H6).
  repeat split; assumption.
Defined.

(** ** Dependence on the clock *)

(** C9, as the specification states it, fails for two of the three
    functions: with the same arguments, a later clock reading changes the
    retention and changes the reviewed card. *)
Lemma C9_counterexample :
  fst (calculate_retention 1 (Some EVE) (frozen_clock NEW_YEAR))
  <> fst (calculate_retention 1 (Some EVE) (frozen_clock NEXT_DAY))
  /\ fst (update_card_on_review 5
            {| sys := frozen_clock NEW_YEAR; card_data := fresh_card |})
     <> fst (update_card_on_review 5
               {| sys := frozen_clock NEXT_DAY; card_data := fresh_card |}).
Proof.
  split.
  - assert (E1 : - elapsed_days (current_time (frozen_clock NEW_YEAR))
                       (DT 63902736000000000) / Rmax 1e-6 1 = - (1)).
    { unfold elapsed_days.
      replace (IZR (ticks (current_time (frozen_clock NEW_YEAR))
                    - ticks (DT 63902736000000000)))
        with 86400000000 by (vm_compute; reflexivity).
      rewrite Rmax_right by lra. lra. }
    assert (E2 : - elapsed_days (current_time (frozen_clock NEXT_DAY))
                       (DT 63902736000000000) / Rmax 1e-6 1 = - (2)).
    { unfold elapsed_days.
      replace (IZR (ticks (current_time (frozen_clock NEXT_DAY))
                    - ticks (DT 63902736000000000)))
        with 172800000000 by (vm_compute; reflexivity).
      rewrite Rmax_right by lra. lra. }
    rewrite !(calculate_retention_parsed 1 EVE (DT 63902736000000000))
      by (vm_compute; reflexivity).
    rewrite E1, E2, !math_exp_below by lra.
    cbn [fst]. intros H. injection H as H. apply exp_inv in H. lra.
  - fold fresh_heap. rewrite first_review.
    rewrite update_card_on_review_weak.
    + cbn [fst sys card_data]. intros H.
      apply (f_equal (fun r : exn + Card =>
                        match r with
                        | inr c => last_review c
                        | inl _ => None
                        end)) in H.
      cbn [last_review fully_updated reviewed_once card_data] in H.
      vm_compute in H. discriminate.
    + lia.
    + unfold reviewed_strength. cbn. unfold DEFAULT_STRENGTH.
      rewrite Rmax_right by lra. lra.
    + vm_compute. discriminate.
    + vm_compute. reflexivity.
Qed.

(** C9: the scheduler takes the current time as an argument and its result
    is fixed by its arguments.  The retention predictor and the review
    update read the system clock themselves; their results are fixed by
    their arguments together with that one clock reading, so two runs with
    the same arguments agree when the clock shows the same time. *)
Theorem C9_clock_dependence (w1 w2 : World) :
  current_time w1 = current_time w2 ->
  (forall (s : R) (now : datetime),
      fst (lift (schedule_next_review s now) w1)
      = fst (lift (schedule_next_review s now) w2)
      /\ snd (lift (schedule_next_review s now) w1) = w1)
  /\ (forall (s : R) (lr : option string),
        fst (calculate_retention s lr w1) = fst (calculate_retention s lr w2))
  /\ (forall (q : Z) (card : Card),
        let out1 := update_card_on_review q {| sys := w1; card_data := card |} in
        let out2 := update_card_on_review q {| sys := w2; card_data := card |} in
        fst out1 = fst out2 /\ card_data (snd out1) = card_data (snd out2)).
Proof.
  intros Hnow. split; [split; reflexivity |]. split.
  - intros s lr. unfold calculate_retention.
    destruct (negb (truthy lr)); [reflexivity |].
    unfold bind, lift, utcnow, ret.
    destruct (fromisoformat _); [reflexivity |].
    rewrite Hnow. reflexivity.
  - intros q card. cbv zeta.
    destruct (Z_lt_dec q 0) as [L | L];
      [rewrite !update_card_on_review_invalid by lia; split; reflexivity |].
    destruct (Z_lt_dec 5 q) as [G | G];
      [rewrite !update_card_on_review_invalid by lia; split; reflexivity |].
    rewrite !update_card_on_review_valid by lia. cbv zeta.
    cbn [sys card_data]. rewrite Hnow.
    destruct (schedule_next_review _ _); split; reflexivity.
Qed.

Lemma C9_clock_dependence_witness :
  current_time (frozen_clock NEW_YEAR)
  = current_time (tick (frozen_clock NEW_YEAR))
  /\ fst (calculate_retention 1 (Some EVE) (frozen_clock NEW_YEAR))
     = fst (calculate_retention 1 (Some EVE) (tick (frozen_clock NEW_YEAR))).
Proof.
  assert (H : current_time (frozen_clock NEW_YEAR)
              = current_time (tick (frozen_clock NEW_YEAR))) by reflexivity.
  split; [exact H |].
  exact (proj1 (proj2 (C9_clock_dependence _ _ H)) 1 (Some EVE)).
Defined.

End Claims.

(* ================================================================== *)
(** * The timestamps round trip *)

Section IsoRoundTrip.

Local Open Scope Z_scope.

Lemma digit_value_digit (n : Z) : digit_value (digit n) = Some (n mod 10).
Proof.
  unfold digit. pose proof (Z.mod_pos_bound n 10 ltac:(lia)) as B.
  generalize dependent (n mod 10). intros k B.
  assert (C : k = 0 \/ k = 1 \/ k = 2 \/ k = 3 \/ k = 4 \/ k = 5 \/ k = 6
              \/ k = 7 \/ k = 8 \/ k = 9) by lia.
  repeat (destruct C as [-> | C]; [reflexivity |]). subst k. reflexivity.
Qed.

Lemma read_digits_succ (w : nat) :
  forall (acc : Z) (s : string),
    read_digits (S w) acc s
    = match read_digits w acc s with
      | Some (v, String c r) =>
          match digit_value c with
          | Some d => Some (v * 10 + d, r)
          | None => None
          end
      | _ => None
      end.
Proof.
  induction w as [| w IH]; intros acc s.
  - destruct s as [| c r]; reflexivity.
  - destruct s as [| c r]; [reflexivity |].
    change (read_digits (S (S w)) acc (String c r))
      with (match digit_value c with
            | Some v => read_digits (S w) (acc * 10 + v) r
            | None => None
            end).
    change (read_digits (S w) acc (String c r))
      with (match digit_value c with
            | Some v => read_digits w (acc * 10 + v) r
            | None => None
            end).
    destruct (digit_value c) as [v |]; [apply IH | reflexivity].
Qed.

Lemma string_app_assoc (a b c : string) : ((a ++ b) ++ c = a ++ (b ++ c))%string.
Proof. induction a as [| x a IH]; cbn; [reflexivity | rewrite IH; reflexivity]. Qed.

Lemma read_zero_padded (w : nat) :
  forall (n acc : Z) (rest : string),
    0 <= n < 10 ^ Z.of_nat w ->
    read_digits w acc (zero_padded w n ++ rest)
    = Some (acc * 10 ^ Z.of_nat w + n, rest).
Proof.
  induction w as [| w IH]; intros n acc rest Hn.
  - cbn in *. f_equal. f_equal. lia.
  - rewrite read_digits_succ.
    change (zero_padded (S w) n)
      with (zero_padded w (n / 10) ++ String (digit n) EmptyString)%string.
    rewrite string_app_assoc. cbn [append].
    rewrite Nat2Z.inj_succ, Z.pow_succ_r in * by lia.
    rewrite IH by (split; [apply Z.div_pos; lia | apply Z.div_lt_upper_bound; lia]).
    rewrite digit_value_digit. f_equal. f_equal.
    pose proof (Z.div_mod n 10 ltac:(lia)). lia.
Qed.

Lemma month_day_all :
  forallb (fun k => month_day_ok true (Z.of_nat k)
                    && month_day_ok false (Z.of_nat k)) (seq 0 365) = true.
Proof. vm_compute. reflexivity. Qed.

Lemma month_day_spec (leapyear : bool) (n : Z) :
  0 <= n < 365 -> month_day_ok leapyear n = true.
Proof.
  intros Hn. pose proof month_day_all as H.
  rewrite forallb_forall in H.
  specialize (H (Z.to_nat n)). rewrite Z2Nat.id in H by lia.
  assert (Hin : In (Z.to_nat n) (seq 0 365)) by (apply in_seq; lia).
  apply H in Hin. apply andb_true_iff in Hin.
  destruct leapyear; tauto.
Qed.

Lemma ord2ymd_unfold (n : Z) :
  ord2ymd n =
    let n0 := n - 1 in
    let a := n0 / DI400Y in
    let r400 := n0 mod DI400Y in
    let b := r400 / DI100Y in
    let r100 := r400 mod DI100Y in
    let c := r100 / DI4Y in
    let r4 := r100 mod DI4Y in
    let e := r4 / 365 in
    let r1 := r4 mod 365 in
    let year := a * 400 + 1 + b * 100 + c * 4 + e in
    if (e =? 4) || (b =? 4) then (year - 1, 12, 31)
    else
      let '(m, d) :=
        month_day ((e =? 3) && (negb (c =? 24) || (b =? 3))) r1 in
      (year, m, d).
Proof.
  unfold ord2ymd, month_day. cbv zeta.
  destruct (_ || _); [reflexivity |].
  destruct (_ >? _); reflexivity.
Qed.

Lemma ord2ymd_ok (n : Z) :
  1 <= n <= MAXORDINAL ->
  let '(y, m, d) := ord2ymd n in
  check_date_fields y m d = true /\ ymd2ord y m d = n.
Proof.
  intros Hn. rewrite ord2ymd_unfold. cbv zeta.
  unfold MAXORDINAL, DI400Y, DI100Y, DI4Y in *.
  set (n0 := n - 1).
  pose proof (Z.div_mod n0 146097 ltac:(lia)) as E400.
  pose proof (Z.mod_pos_bound n0 146097 ltac:(lia)) as B400.
  set (a := n0 / 146097) in *. set (r400 := n0 mod 146097) in *.
  pose proof (Z.div_mod r400 36524 ltac:(lia)) as E100.
  pose proof (Z.mod_pos_bound r400 36524 ltac:(lia)) as B100.
  set (b := r400 / 36524) in *. set (r100 := r400 mod 36524) in *.
  pose proof (Z.div_mod r100 1461 ltac:(lia)) as E4.
  pose proof (Z.mod_pos_bound r100 1461 ltac:(lia)) as B4.
  set (c := r100 / 1461) in *. set (r4 := r100 mod 1461) in *.
  pose proof (Z.div_mod r4 365 ltac:(lia)) as E1.
  pose proof (Z.mod_pos_bound r4 365 ltac:(lia)) as B1.
  set (e := r4 / 365) in *. set (r1 := r4 mod 365) in *.
  assert (Ha : 0 <= a <= 24) by (subst n0; lia).
  assert (Hb : 0 <= b <= 4) by lia.
  assert (Hc : 0 <= c <= 24) by lia.
  assert (He : 0 <= e <= 4) by lia.
  clearbody a r400 b r100 c r4 e r1. subst n0.
  destruct (Z.eqb_spec e 4) as [He4 | He4]; cbn [orb].
  - (* last day of a leap year inside a century *)
    assert (Hc' : c <= 23) by lia.
    unfold check_date_fields, ymd2ord, days_in_month, days_before_month,
      days_before_year, is_leap.
    replace ((a * 400 + 1 + b * 100 + c * 4 + e - 1) mod 4) with 0
      by (Z.div_mod_to_equations; lia).
    replace ((a * 400 + 1 + b * 100 + c * 4 + e - 1) mod 100 =? 0) with false
      by (symmetry; apply Z.eqb_neq; Z.div_mod_to_equations; lia).
    change (index DAYS_IN_MONTH 12) with 31.
    change (index DAYS_BEFORE_MONTH 12) with 334.
    change (12 =? 2) with false. change (12 >? 2) with true.
    cbn [andb negb orb Z.eqb].
    replace ((a * 400 + 1 + b * 100 + c * 4 + e - 1 - 1) / 4)
      with (a * 100 + b * 25 + c) by (Z.div_mod_to_equations; lia).
    replace ((a * 400 + 1 + b * 100 + c * 4 + e - 1 - 1) / 100)
      with (a * 4 + b) by (Z.div_mod_to_equations; lia).
    replace ((a * 400 + 1 + b * 100 + c * 4 + e - 1 - 1) / 400)
      with a by (Z.div_mod_to_equations; lia).
    split; [| lia].
    repeat (apply andb_true_iff; split); try reflexivity;
      first [apply Z.leb_le | apply Z.ltb_lt]; lia.
  - destruct (Z.eqb_spec b 4) as [Hb4 | Hb4]; cbn [orb].
    + (* last day of a 400-year cycle *)
      assert (c = 0 /\ e = 0 /\ r1 = 0) as (-> & -> & ->) by lia.
      subst b.
      unfold check_date_fields, ymd2ord, days_in_month, days_before_month,
        days_before_year, is_leap.
      replace ((a * 400 + 1 + 4 * 100 + 0 * 4 + 0 - 1) mod 4) with 0
        by (Z.div_mod_to_equations; lia).
      replace ((a * 400 + 1 + 4 * 100 + 0 * 4 + 0 - 1) mod 400) with 0
        by (Z.div_mod_to_equations; lia).
      replace ((a * 400 + 1 + 4 * 100 + 0 * 4 + 0 - 1) mod 100) with 0
        by (Z.div_mod_to_equations; lia).
      change (index DAYS_IN_MONTH 12) with 31.
      change (index DAYS_BEFORE_MONTH 12) with 334.
      change (12 =? 2) with false. change (12 >? 2) with true.
      cbn [andb negb orb Z.eqb].
      replace ((a * 400 + 1 + 4 * 100 + 0 * 4 + 0 - 1 - 1) / 4)
        with (a * 100 + 99) by (Z.div_mod_to_equations; lia).
      replace ((a * 400 + 1 + 4 * 100 + 0 * 4 + 0 - 1 - 1) / 100)
        with (a * 4 + 3) by (Z.div_mod_to_equations; lia).
      replace ((a * 400 + 1 + 4 * 100 + 0 * 4 + 0 - 1 - 1) / 400)
        with a by (Z.div_mod_to_equations; lia).
      split; [| lia].
      repeat (apply andb_true_iff; split); try reflexivity;
        first [apply Z.leb_le | apply Z.ltb_lt]; lia.
    + (* an ordinary day *)
      set (leapyear := (e =? 3) && (negb (c =? 24) || (b =? 3))).
      set (year := a * 400 + 1 + b * 100 + c * 4 + e).
      assert (Hleap : is_leap year = leapyear).
      { unfold is_leap, leapyear, year.
        destruct (Z.eqb_spec e 3) as [-> | He3].
        - replace ((a * 400 + 1 + b * 100 + c * 4 + 3) mod 4) with 0
            by (Z.div_mod_to_equations; lia).
          cbn [Z.eqb andb].
          destruct (Z.eqb_spec c 24) as [-> | Hc24].
          + replace ((a * 400 + 1 + b * 100 + 24 * 4 + 3) mod 100) with 0
              by (Z.div_mod_to_equations; lia).
            cbn [Z.eqb negb orb].
            destruct (Z.eqb_spec b 3) as [-> | Hb3].
            * replace ((a * 400 + 1 + 3 * 100 + 24 * 4 + 3) mod 400) with 0
                by (Z.div_mod_to_equations; lia).
              reflexivity.
            * apply Z.eqb_neq. Z.div_mod_to_equations. lia.
          + replace ((a * 400 + 1 + b * 100 + c * 4 + 3) mod 100 =? 0)
              with false
              by (symmetry; apply Z.eqb_neq; Z.div_mod_to_equations; lia).
            reflexivity.
        - replace ((a * 400 + 1 + b * 100 + c * 4 + e) mod 4 =? 0) with false
            by (symmetry; apply Z.eqb_neq; Z.div_mod_to_equations; lia).
          reflexivity. }
      pose proof (month_day_spec leapyear r1 B1) as Hmd.
      unfold month_day_ok in Hmd.
      destruct (month_day leapyear r1) as [m d].
      repeat (apply andb_true_iff in Hmd; destruct Hmd as [Hmd ?]).
      unfold check_date_fields, ymd2ord, days_in_month, days_before_month,
        days_before_year.
      rewrite Hleap.
      replace ((year - 1) / 4) with (a * 100 + b * 25 + c)
        by (unfold year; Z.div_mod_to_equations; lia).
      replace ((year - 1) / 100) with (a * 4 + b)
        by (unfold year; Z.div_mod_to_equations; lia).
      replace ((year - 1) / 400) with a
        by (unfold year; Z.div_mod_to_equations; lia).
      split.
      * repeat (apply andb_true_iff; split); try assumption;
          first [apply Z.leb_le | apply Z.ltb_lt]; unfold year; lia.
      * apply Z.eqb_eq in H. unfold year. lia.
Qed.

Lemma read_zero_padded_0 (w : nat) (n : Z) (rest : string) :
  0 <= n < 10 ^ Z.of_nat w ->
  read_digits w 0 (zero_padded w n ++ rest) = Some (n, rest).
Proof.
  intros H. rewrite read_zero_padded by exact H. reflexivity.
Qed.

Lemma string_app_nil_r (s : string) : (s ++ "")%string = s.
Proof. induction s as [| c s IH]; cbn; [| rewrite IH]; reflexivity. Qed.

Lemma days_in_month_le (year month : Z) :
  1 <= month <= 12 -> days_in_month year month <= 31.
Proof.
  intros H. unfold days_in_month.
  destruct ((month =? 2) && is_leap year); [lia |].
  assert (C : month = 1 \/ month = 2 \/ month = 3 \/ month = 4 \/ month = 5
              \/ month = 6 \/ month = 7 \/ month = 8 \/ month = 9
              \/ month = 10 \/ month = 11 \/ month = 12) by lia.
  repeat (destruct C as [-> | C]; [vm_compute; discriminate |]).
  subst. vm_compute. discriminate.
Qed.

Lemma and_then_Some {A B} (a : A) (k : A -> option B) :
  and_then (Some a) k = k a.
Proof. reflexivity. Qed.

Lemma expect_String (c : ascii) (s : string) : expect c (String c s) = Some s.
Proof. unfold expect. rewrite Ascii.eqb_refl. reflexivity. Qed.

Lemma fromisoformat_isoformat (d : datetime) :
  in_range d = true -> fromisoformat (isoformat d) = inr d.
Proof.
  intros Hin. apply in_range_iff in Hin. destruct d as [t]. cbn [ticks] in *.
  unfold isoformat. cbn [ticks].
  unfold MAXORDINAL, US_PER_DAY, US_PER_SECOND in *.
  pose proof (Z.div_mod t (86400 * 1000000) ltac:(lia)) as Et.
  pose proof (Z.mod_pos_bound t (86400 * 1000000) ltac:(lia)) as Bt.
  set (days := t / (86400 * 1000000)) in *.
  set (rest := t mod (86400 * 1000000)) in *.
  assert (Hdays : 0 <= days < 3652059) by lia.
  pose proof (ord2ymd_ok (days + 1)) as Hymd.
  unfold MAXORDINAL in Hymd. specialize (Hymd ltac:(lia)).
  destruct (ord2ymd (days + 1)) as [[year month] day].
  destruct Hymd as [Hcheck Hord].
  pose proof Hcheck as Hfields. unfold check_date_fields in Hfields.
  repeat (apply andb_true_iff in Hfields; destruct Hfields as [Hfields ?]).
  repeat match goal with
         | H : (_ <=? _) = true |- _ => apply Z.leb_le in H
         end.
  pose proof (days_in_month_le year month ltac:(lia)) as Hdim.
  pose proof (Z.div_mod rest 1000000 ltac:(lia)) as Er.
  pose proof (Z.mod_pos_bound rest 1000000 ltac:(lia)) as Br.
  set (secs := rest / 1000000) in *. set (us := rest mod 1000000) in *.
  assert (Hsecs : 0 <= secs < 86400) by lia.
  pose proof (Z.div_mod secs 3600 ltac:(lia)) as Eh.
  pose proof (Z.mod_pos_bound secs 3600 ltac:(lia)) as Bh.
  set (hh := secs / 3600) in *. set (rh := secs mod 3600) in *.
  pose proof (Z.div_mod rh 60 ltac:(lia)) as Em.
  pose proof (Z.mod_pos_bound rh 60 ltac:(lia)) as Bm.
  set (mm := rh / 60) in *.
  assert (Ess : secs mod 60 = rh mod 60).
  { subst rh. clear. Z.div_mod_to_equations. lia. }
  rewrite Ess. set (ss := rh mod 60) in *.
  assert (Hhh : 0 <= hh <= 23) by lia.
  assert (Hmm : 0 <= mm <= 59) by lia.
  clearbody days rest secs us hh rh mm ss.
  unfold fromisoformat, parse_fields, format_time.
  cbn [append].
  do 5 (rewrite read_zero_padded_0 by (cbn; lia);
        rewrite and_then_Some; cbv beta iota;
        rewrite expect_String, and_then_Some; cbv beta iota).
  rewrite read_zero_padded_0 by (cbn; lia).
  rewrite and_then_Some. cbv beta iota.
  assert (Htime : check_time_fields hh mm ss us = true).
  { unfold check_time_fields.
    repeat (apply andb_true_iff; split); apply Z.leb_le; lia. }
  assert (Hval : of_fields year month day hh mm ss us = DT t).
  { unfold of_fields, US_PER_SECOND. f_equal. lia. }
  destruct (Z.eqb_spec us 0) as [Hus | Hus].
  - subst us. rewrite Hcheck, Htime, Hval. reflexivity.
  - rewrite expect_String, and_then_Some. cbv beta iota.
    rewrite <- (string_app_nil_r (zero_padded 6 us)).
    rewrite read_zero_padded_0 by (cbn; lia).
    rewrite Hcheck, Htime, Hval. reflexivity.
Qed.

End IsoRoundTrip.

(* ================================================================== *)
(** * Further properties of the module *)

Section Further.

Local Open Scope Z_scope.
Local Open Scope R_scope.

Lemma round_half_even_mono (x y : R) :
  x <= y -> (round_half_even x <= round_half_even y)%Z.
Proof.
  intros Hxy.
  pose proof (Zfloor_le x y Hxy) as Hfl.
  destruct (Z.eq_dec (Zfloor x) (Zfloor y)) as [E | NE].
  - destruct (round_half_even_cases x) as [[Hx Ex] | [[Hx Ex] | [Hx Ex]]];
      destruct (round_half_even_cases y) as [[Hy Ey] | [[Hy Ey] | [Hy Ey]]];
      rewrite Ex, Ey; rewrite E in *; clear Ex Ey;
      try (exfalso; lra); try lia;
      destruct (Z.even (Zfloor y)); lia.
  - destruct (round_half_even_cases x) as [[Hx Ex] | [[Hx Ex] | [Hx Ex]]];
      destruct (round_half_even_cases y) as [[Hy Ey] | [[Hy Ey] | [Hy Ey]]];
      rewrite Ex, Ey; clear Ex Ey;
      try (destruct (Z.even (Zfloor x)));
      try (destruct (Z.even (Zfloor y))); lia.
Qed.

Lemma interval_days_mono (s1 s2 : R) :
  s1 <= s2 -> interval_days s1 <= interval_days s2.
Proof.
  intros H. pose proof ln_RETENTION_TARGET_bounds as [_ Hhi].
  unfold interval_days.
  apply Rmax_case.
  - apply Rle_trans with (- s2 * ln RETENTION_TARGET); [| apply Rmax_l].
    assert (0 <= (s2 - s1) * - ln RETENTION_TARGET)
      by (apply Rmult_le_pos; lra).
    lra.
  - apply Rmax_r.
Qed.

Lemma interval_us_mono (s1 s2 : R) :
  s1 <= s2 -> (interval_us s1 <= interval_us s2)%Z.
Proof.
  intros H. unfold interval_us. apply round_half_even_mono.
  rewrite IZR_US_PER_DAY. pose proof (interval_days_mono s1 s2 H). lra.
Qed.

(** Strengths up to 2.5, zero and negative ones included, get the floor. *)
Lemma interval_us_floor_reached (s : R) :
  s <= 5 / 2 -> interval_us s = HALF_DAY_US.
Proof.
  intros Hs. apply interval_us_half_day.
  pose proof ln_RETENTION_TARGET_bounds as [Hlo Hhi].
  destruct (Rle_dec s 0) as [Hneg | Hpos].
  - assert (0 <= - s * - ln RETENTION_TARGET) by (apply Rmult_le_pos; lra).
    lra.
  - assert (s * - ln RETENTION_TARGET <= 5 / 2 * (1 / 5))
      by (apply Rmult_le_compat; lra).
    lra.
Qed.

Lemma interval_us_large (s : R) :
  25000000 <= s -> (3750000 * 86400000000 <= interval_us s)%Z.
Proof.
  intros Hs. pose proof ln_RETENTION_TARGET_bounds as [Hlo Hhi].
  apply round_half_even_lower. rewrite IZR_US_PER_DAY.
  assert (25000000 * (3 / 20) <= s * - ln RETENTION_TARGET)
    by (apply Rmult_le_compat; lra).
  pose proof (Rmax_l (- s * ln RETENTION_TARGET) MIN_INTERVAL_DAYS) as Hm.
  fold (interval_days s) in Hm.
  rewrite mult_IZR. lra.
Qed.

(** X1: the scheduler never returns for a strength of 25 million or more. *)
Theorem schedule_next_review_overflow (s : R) (now : datetime) :
  25000000 <= s ->
  in_range now = true ->
  exists msg : string, schedule_next_review s now = inl (OverflowError msg).
Proof.
  intros Hs Hnow. apply in_range_iff in Hnow.
  pose proof (schedule_next_review_cases s now ltac:(lia)) as H.
  cbv zeta in H.
  replace (in_range (DT (ticks now + interval_us s))) with false in H;
    [exact H |].
  symmetry. apply not_true_is_false. rewrite in_range_iff. cbn [ticks].
  pose proof (interval_us_large s Hs).
  unfold MAXORDINAL, US_PER_DAY, US_PER_SECOND in *. lia.
Qed.

Lemma schedule_next_review_overflow_witness :
  25000000 <= STRONG
  /\ in_range NEW_YEAR = true
  /\ exists msg : string,
       schedule_next_review STRONG NEW_YEAR = inl (OverflowError msg).
Proof.
  assert (H0 : 25000000 <= STRONG) by (unfold STRONG; lra).
  assert (H1 : in_range NEW_YEAR = true) by (vm_compute; reflexivity).
  repeat split; try assumption.
  exact (schedule_next_review_overflow STRONG NEW_YEAR H0 H1).
Defined.

(** X2: a strength of at most 2.5, also zero or negative, is scheduled exactly
    half a day after [now] and never raises. *)
Theorem schedule_next_review_floor (s : R) (now : datetime) :
  s <= 5 / 2 ->
  in_range now = true ->
  in_range (DT (ticks now + HALF_DAY_US)) = true ->
  schedule_next_review s now = inr (isoformat (DT (ticks now + HALF_DAY_US)))
  /\ fromisoformat (isoformat (DT (ticks now + HALF_DAY_US)))
     = inr (DT (ticks now + HALF_DAY_US)).
Proof.
  intros Hs Hnow Hnext. apply in_range_iff in Hnow. split.
  - rewrite schedule_next_review_returns;
      rewrite ?interval_us_floor_reached by exact Hs;
      [reflexivity | lia | exact Hnext].
  - apply fromisoformat_isoformat. exact Hnext.
Qed.

Lemma schedule_next_review_floor_witness :
  0 <= 5 / 2
  /\ in_range NEW_YEAR = true
  /\ in_range (DT (ticks NEW_YEAR + HALF_DAY_US)) = true
  /\ schedule_next_review 0 NEW_YEAR
     = inr (isoformat (DT (ticks NEW_YEAR + HALF_DAY_US))).
Proof.
  assert (H0 : 0 <= 5 / 2) by lra.
  assert (H1 : in_range NEW_YEAR = true) by (vm_compute; reflexivity).
  assert (H2 : in_range (DT (ticks NEW_YEAR + HALF_DAY_US)) = true)
    by (vm_compute; reflexivity).
  repeat split; try assumption.
  exact (proj1 (schedule_next_review_floor 0 NEW_YEAR H0 H1 H2)).
Defined.

(** X3: a larger strength is never scheduled earlier. *)
Theorem schedule_next_review_monotone (s1 s2 : R) (now : datetime)
    (next1 next2 : string) :
  s1 <= s2 ->
  in_range now = true ->
  schedule_next_review s1 now = inr next1 ->
  schedule_next_review s2 now = inr next2 ->
  exists d1 d2 : datetime,
    fromisoformat next1 = inr d1 /\ fromisoformat next2 = inr d2
    /\ (ticks now + HALF_DAY_US <= ticks d1 <= ticks d2)%Z.
Proof.
  intros Hs Hnow H1 H2. apply in_range_iff in Hnow.
  pose proof (schedule_next_review_cases s1 now ltac:(lia)) as C1.
  pose proof (schedule_next_review_cases s2 now ltac:(lia)) as C2.
  cbv zeta in C1, C2.
  destruct (in_range (DT (ticks now + interval_us s1))) eqn:R1;
    [| destruct C1 as [msg C1]; congruence].
  destruct (in_range (DT (ticks now + interval_us s2))) eqn:R2;
    [| destruct C2 as [msg C2]; congruence].
  rewrite C1 in H1. rewrite C2 in H2.
  injection H1 as <-. injection H2 as <-.
  exists (DT (ticks now + interval_us s1)), (DT (ticks now + interval_us s2)).
  rewrite !fromisoformat_isoformat by assumption.
  repeat split; cbn [ticks].
  - pose proof (interval_us_floor s1). lia.
  - pose proof (interval_us_mono s1 s2 Hs). lia.
Qed.

Lemma schedule_next_review_monotone_witness :
  0 <= 1
  /\ in_range NEW_YEAR = true
  /\ schedule_next_review 0 NEW_YEAR = inr NOON
  /\ schedule_next_review 1 NEW_YEAR = inr NOON
  /\ exists d1 d2 : datetime,
       fromisoformat NOON = inr d1 /\ fromisoformat NOON = inr d2
       /\ (ticks NEW_YEAR + HALF_DAY_US <= ticks d1 <= ticks d2)%Z.
Proof.
  assert (H0 : 0 <= 1) by lra.
  assert (H1 : in_range NEW_YEAR = true) by (vm_compute; reflexivity).
  assert (H2 : in_range (DT (ticks NEW_YEAR + HALF_DAY_US)) = true)
    by (vm_compute; reflexivity).
  assert (H3 : schedule_next_review 0 NEW_YEAR = inr NOON)
    by (exact (proj1 (schedule_next_review_floor 0 NEW_YEAR
                        ltac:(lra) H1 H2))).
  assert (H4 : schedule_next_review 1 NEW_YEAR = inr NOON)
    by (exact (proj1 (schedule_next_review_floor 1 NEW_YEAR
                        ltac:(lra) H1 H2))).
  repeat split; try assumption.
  exact (schedule_next_review_monotone 0 1 NEW_YEAR NOON NOON H0 H1 H3 H4).
Defined.

(** ** Strings [fromisoformat] rejects *)

Lemma read_digits_length (w : nat) :
  forall (acc v : Z) (s rest : string),
    read_digits w acc s = Some (v, rest) ->
    String.length s = (w + String.length rest)%nat.
Proof.
  induction w as [| w IH]; intros acc v s rest H.
  - cbn in H. injection H as _ <-. reflexivity.
  - destruct s as [| c s']; [discriminate |]. cbn [read_digits] in H.
    destruct (digit_value c); [| discriminate].
    apply IH in H. cbn [String.length]. lia.
Qed.

Lemma expect_length (c : ascii) (s rest : string) :
  expect c s = Some rest -> String.length s = S (String.length rest).
Proof.
  destruct s as [| c' s']; [discriminate |]. cbn [expect].
  destruct (Ascii.eqb c c'); [| discriminate].
  intros H. injection H as <-. reflexivity.
Qed.

Ltac parse_step H :=
  match type of H with
  | and_then (read_digits ?w ?a ?s) _ = Some _ =>
      let v := fresh "v" in
      let r := fresh "r" in
      let E := fresh "E" in
      destruct (read_digits w a s) as [[v r] |] eqn:E; [| discriminate H];
      apply read_digits_length in E; cbn [and_then] in H
  | and_then (expect ?c ?s) _ = Some _ =>
      let r := fresh "r" in
      let E := fresh "E" in
      destruct (expect c s) as [r |] eqn:E; [| discriminate H];
      apply expect_length in E; cbn [and_then] in H
  end.

Lemma parse_fields_length (s : string) (f : Z * Z * Z * Z * Z * Z * Z) :
  parse_fields s = Some f -> (19 <= String.length s)%nat.
Proof.
  unfold parse_fields. intros H.
  do 11 parse_step H. lia.
Qed.

Lemma fromisoformat_short (s : string) :
  (String.length s < 19)%nat ->
  fromisoformat s = inl (ValueError "Invalid isoformat string").
Proof.
  intros H. unfold fromisoformat.
  destruct (parse_fields s) as [f |] eqn:E; [| reflexivity].
  apply parse_fields_length in E. lia.
Qed.

(** X4: a non-empty [last_review] of fewer than 7 characters makes the
    retention call raise [ValueError]; the clock has not been read. *)
Theorem calculate_retention_invalid (s : R) (str : string) (w : World) :
  (0 < String.length str < 7)%nat ->
  exists msg : string,
    calculate_retention s (Some str) w = (inl (ValueError msg), w).
Proof.
  intros [Hpos Hlen]. destruct str as [| c str']; [cbn in Hpos; lia |].
  unfold calculate_retention. cbn [truthy negb].
  unfold bind, lift. rewrite fromisoformat_short by lia.
  eexists. reflexivity.
Qed.

Lemma calculate_retention_invalid_witness :
  (0 < String.length "never" < 7)%nat
  /\ exists msg : string,
       calculate_retention 1 (Some "never"%string) (frozen_clock NEW_YEAR)
       = (inl (ValueError msg), frozen_clock NEW_YEAR).
Proof.
  assert (H : (0 < String.length "never" < 7)%nat) by (cbn; lia).
  split; [exact H |].
  exact (calculate_retention_invalid 1 "never" (frozen_clock NEW_YEAR) H).
Defined.

(** ** Shape of the forgetting curve *)

Lemma retention_exponent_mono (t1 t2 d : R) :
  0 < d -> t1 <= t2 -> - t2 / d <= - t1 / d.
Proof.
  intros Hd Ht. unfold Rdiv.
  assert (0 <= (t2 - t1) * / d)
    by (apply Rmult_le_pos; [lra | left; apply Rinv_0_lt_compat; exact Hd]).
  lra.
Qed.

Lemma exp_monotone (x y : R) : x <= y -> exp x <= exp y.
Proof.
  intros [H | ->]; [left; apply exp_increasing; exact H | right; reflexivity].
Qed.

Lemma elapsed_days_mono (now1 now2 last_dt : datetime) :
  (ticks now1 <= ticks now2)%Z ->
  elapsed_days now1 last_dt <= elapsed_days now2 last_dt.
Proof.
  intros H. unfold elapsed_days.
  assert (IZR (ticks now1 - ticks last_dt) <= IZR (ticks now2 - ticks last_dt))
    by (apply IZR_le; lia).
  lra.
Qed.

(** A [last_review] that is not in the future never overflows. *)
Lemma calculate_retention_past (s : R) (str : string) (last_dt : datetime)
    (w : World) :
  fromisoformat str = inr last_dt ->
  (ticks last_dt <= ticks (current_time w))%Z ->
  calculate_retention s (Some str) w
  = (inr (exp (- elapsed_days (current_time w) last_dt / Rmax 1e-6 s)),
     tick w).
Proof.
  intros Hp Hle. apply calculate_retention_returns; [exact Hp |].
  pose proof (elapsed_days_nonneg _ _ Hle) as Ht.
  pose proof (Rmax_epsilon_pos s) as Hd.
  assert (0 <= elapsed_days (current_time w) last_dt * / Rmax 1e-6 s)
    by (apply Rmult_le_pos; [exact Ht | left; apply Rinv_0_lt_compat; exact Hd]).
  unfold Rdiv. lra.
Qed.

(** X5: for a fixed strength and [last_review], the predicted retention
    never grows as the clock advances. *)
Theorem retention_decays (s : R) (str : string) (last_dt : datetime)
    (w1 w2 : World) (r1 r2 : R) :
  fromisoformat str = inr last_dt ->
  (ticks (current_time w1) <= ticks (current_time w2))%Z ->
  fst (calculate_retention s (Some str) w1) = inr r1 ->
  fst (calculate_retention s (Some str) w2) = inr r2 ->
  r2 <= r1.
Proof.
  intros Hp Hle H1 H2.
  rewrite (calculate_retention_parsed s str last_dt w1 Hp) in H1.
  rewrite (calculate_retention_parsed s str last_dt w2 Hp) in H2.
  cbn [fst] in H1, H2.
  apply math_exp_inr in H1. apply math_exp_inr in H2. subst r1 r2.
  apply exp_monotone, retention_exponent_mono;
    [apply Rmax_epsilon_pos | apply elapsed_days_mono; exact Hle].
Qed.

Lemma retention_decays_witness :
  fromisoformat EVE = inr (DT (ticks NEW_YEAR - US_PER_DAY))
  /\ (ticks (current_time (frozen_clock NEW_YEAR))
      <= ticks (current_time (frozen_clock NEXT_DAY)))%Z
  /\ exists r1 r2 : R,
       fst (calculate_retention 1 (Some EVE) (frozen_clock NEW_YEAR)) = inr r1
       /\ fst (calculate_retention 1 (Some EVE) (frozen_clock NEXT_DAY)) = inr r2
       /\ r2 <= r1.
Proof.
  assert (Hp : fromisoformat EVE = inr (DT (ticks NEW_YEAR - US_PER_DAY)))
    by (vm_compute; reflexivity).
  assert (Hle : (ticks (current_time (frozen_clock NEW_YEAR))
                 <= ticks (current_time (frozen_clock NEXT_DAY)))%Z)
    by (vm_compute; discriminate).
  split; [exact Hp |]. split; [exact Hle |].
  eexists. eexists.
  assert (H1 : forall w,
             (ticks (DT (ticks NEW_YEAR - US_PER_DAY))
              <= ticks (current_time w))%Z ->
             fst (calculate_retention 1 (Some EVE) w)
             = inr (exp (- elapsed_days (current_time w)
                             (DT (ticks NEW_YEAR - US_PER_DAY))
                         / Rmax 1e-6 1)))
    by (intros w Hw; rewrite (calculate_retention_past 1 EVE _ w Hp Hw);
        reflexivity).
  assert (Ha : (ticks (DT (ticks NEW_YEAR - US_PER_DAY))
                <= ticks (current_time (frozen_clock NEW_YEAR)))%Z)
    by (vm_compute; discriminate).
  assert (Hb : (ticks (DT (ticks NEW_YEAR - US_PER_DAY))
                <= ticks (current_time (frozen_clock NEXT_DAY)))%Z)
    by (vm_compute; discriminate).
  split; [exact (H1 _ Ha) |]. split; [exact (H1 _ Hb) |].
  exact (retention_decays 1 EVE _ _ _ _ _ Hp Hle (H1 _ Ha) (H1 _ Hb)).
Defined.

(** X6: a larger strength never predicts a lower retention, as long as
    [last_review] is not in the future. *)
Theorem retention_grows_with_strength (s1 s2 : R) (str : string)
    (last_dt : datetime) (w : World) (r1 r2 : R) :
  s1 <= s2 ->
  fromisoformat str = inr last_dt ->
  (ticks last_dt <= ticks (current_time w))%Z ->
  fst (calculate_retention s1 (Some str) w) = inr r1 ->
  fst (calculate_retention s2 (Some str) w) = inr r2 ->
  r1 <= r2.
Proof.
  intros Hs Hp Hle H1 H2.
  rewrite (calculate_retention_parsed s1 str last_dt w Hp) in H1.
  rewrite (calculate_retention_parsed s2 str last_dt w Hp) in H2.
  cbn [fst] in H1, H2.
  apply math_exp_inr in H1. apply math_exp_inr in H2. subst r1 r2.
  apply exp_monotone.
  pose proof (elapsed_days_nonneg _ _ Hle) as Ht.
  pose proof (Rmax_epsilon_pos s1) as Hd1.
  assert (Hd : Rmax 1e-6 s1 <= Rmax 1e-6 s2).
  { apply Rmax_case; [apply Rmax_l |].
    apply Rle_trans with s2; [exact Hs | apply Rmax_r]. }
  set (t := elapsed_days (current_time w) last_dt) in *.
  set (d1 := Rmax 1e-6 s1) in *. set (d2 := Rmax 1e-6 s2) in *.
  assert (Hinv : / d2 <= / d1) by (apply Rinv_le_contravar; assumption).
  assert (0 <= t * (/ d1 - / d2)) by (apply Rmult_le_pos; lra).
  unfold Rdiv. lra.
Qed.

Lemma retention_grows_with_strength_witness :
  1 <= 2
  /\ fromisoformat EVE = inr (DT (ticks NEW_YEAR - US_PER_DAY))
  /\ (ticks (DT (ticks NEW_YEAR - US_PER_DAY))
      <= ticks (current_time (frozen_clock NEW_YEAR)))%Z
  /\ exists r1 r2 : R,
       fst (calculate_retention 1 (Some EVE) (frozen_clock NEW_YEAR)) = inr r1
       /\ fst (calculate_retention 2 (Some EVE) (frozen_clock NEW_YEAR)) = inr r2
       /\ r1 <= r2.
Proof.
  assert (Hs : 1 <= 2) by lra.
  assert (Hp : fromisoformat EVE = inr (DT (ticks NEW_YEAR - US_PER_DAY)))
    by (vm_compute; reflexivity).
  assert (Hle : (ticks (DT (ticks NEW_YEAR - US_PER_DAY))
                 <= ticks (current_time (frozen_clock NEW_YEAR)))%Z)
    by (vm_compute; discriminate).
  split; [exact Hs |]. split; [exact Hp |]. split; [exact Hle |].
  eexists. eexists.
  assert (H1 : forall s, fst (calculate_retention s (Some EVE)
                                (frozen_clock NEW_YEAR))
                         = inr (exp (- elapsed_days
                                         (current_time (frozen_clock NEW_YEAR))
                                         (DT (ticks NEW_YEAR - US_PER_DAY))
                                     / Rmax 1e-6 s)))
    by (intros s; rewrite (calculate_retention_past s EVE _ _ Hp Hle);
        reflexivity).
  split; [apply H1 |]. split; [apply H1 |].
  exact (retention_grows_with_strength 1 2 EVE _ _ _ _ Hs Hp Hle
           (H1 _) (H1 _)).
Defined.

(** X7: every strength of at most [1e-6], zero and negative ones included,
    gives the retention of the strength [1e-6]: the divisor is never zero
    and the call does not raise. *)
Theorem retention_clamped (s : R) (lr : option string) (w : World) :
  s <= 1e-6 ->
  calculate_retention s lr w = calculate_retention 1e-6 lr w.
Proof.
  intros Hs. unfold calculate_retention.
  destruct (negb (truthy lr)); [reflexivity |].
  unfold bind, lift, utcnow, ret.
  destruct (fromisoformat _); [reflexivity |].
  rewrite (Rmax_left 1e-6 s) by exact Hs.
  rewrite (Rmax_left 1e-6 1e-6) by lra. reflexivity.
Qed.

Lemma retention_clamped_witness :
  0 <= 1e-6
  /\ calculate_retention 0 (Some EVE) (frozen_clock NEW_YEAR)
     = calculate_retention 1e-6 (Some EVE) (frozen_clock NEW_YEAR).
Proof.
  assert (H : 0 <= 1e-6) by lra.
  split; [exact H |].
  exact (retention_clamped 0 (Some EVE) (frozen_clock NEW_YEAR) H).
Defined.

(** ** The review update beyond the claims *)

Lemma schedule_next_review_error (s : R) (now : datetime) (e : exn) :
  schedule_next_review s now = inl e ->
  exists msg : string, e = OverflowError msg.
Proof.
  unfold schedule_next_review, timedelta_days, add.
  repeat match goal with
         | |- context [if ?b then _ else _] => destruct b
         end;
    intros H; inversion H; eauto.
Qed.

(** X8: a review with a valid quality can only fail with [OverflowError],
    raised by the scheduling call; by then the clock has been read once and
    strength, box and [last_review] are already assigned, while
    [next_review] and the history are as before: no entry is appended. *)
Theorem update_card_on_review_overflow (q : Z) (h h' : Heap) (e : exn) :
  (0 <= q <= 5)%Z ->
  update_card_on_review q h = (inl e, h') ->
  (exists msg : string, e = OverflowError msg)
  /\ sys h' = tick (sys h)
  /\ strength (card_data h') = reviewed_strength (card_data h) q
  /\ box (card_data h') = reviewed_box (card_data h) q
  /\ last_review (card_data h') = Some (isoformat (current_time (sys h)))
  /\ next_review (card_data h') = next_review (card_data h)
  /\ history (card_data h') = history (card_data h).
Proof.
  intros Hq H. rewrite update_card_on_review_valid in H by exact Hq.
  cbv zeta in H.
  destruct (schedule_next_review _ _) as [e0 | next] eqn:Hs; [| discriminate].
  injection H as <- <-.
  split; [exact (schedule_next_review_error _ _ _ Hs) |].
  repeat split.
Qed.

Lemma update_card_on_review_overflow_witness :
  (0 <= 3 <= 5)%Z
  /\ exists (e : exn) (h' : Heap),
       update_card_on_review 3 strong_heap = (inl e, h')
       /\ (exists msg : string, e = OverflowError msg)
       /\ history (card_data h') = history (card_data strong_heap).
Proof.
  assert (Hq : (0 <= 3 <= 5)%Z) by lia.
  split; [exact Hq |].
  assert (Hs : 25000000 <= reviewed_strength (card_data strong_heap) 3).
  { unfold reviewed_strength. cbn. unfold STRONG.
    rewrite Rmax_right by lra. lra. }
  destruct (schedule_next_review_overflow _ NEW_YEAR Hs
              ltac:(vm_compute; reflexivity)) as [msg Hm].
  assert (Hrun : update_card_on_review 3 strong_heap
                 = (inl (OverflowError msg),
                    {| sys := tick (sys strong_heap);
                       card_data := half_updated (card_data strong_heap) 3
                                      (current_time (sys strong_heap)) |})).
  { rewrite update_card_on_review_valid by exact Hq. cbv zeta.
    change (current_time (sys strong_heap)) with NEW_YEAR.
    rewrite Hm. reflexivity. }
  eexists. eexists. split; [exact Hrun |].
  pose proof (update_card_on_review_overflow 3 strong_heap _ _ Hq Hrun) as H.
  split; [exact (proj1 H) |]. apply H.
Defined.

(** X9: a card whose strength is zero or negative is brought to the floor by
    any review: the new strength is 0.1, or 0.1 + 0.2 for quality 5. *)
Theorem update_card_on_review_repairs (q : Z) (h : Heap) :
  (0 <= q <= 5)%Z ->
  strength (card_data h) <= 0 ->
  strength (card_data (snd (update_card_on_review q h)))
  = if (q =? 5)%Z then 0.1 + 0.2 else 0.1.
Proof.
  intros Hq Hs. rewrite post_strength by exact Hq.
  unfold reviewed_strength.
  assert (Hm : 0 < dict_get QUALITY_MULTIPLIER q 1.0).
  { assert (C : (q = 0 \/ q = 1 \/ q = 2 \/ q = 3 \/ q = 4 \/ q = 5)%Z) by lia.
    repeat (destruct C as [-> | C]; [cbn; lra |]). subst. cbn. lra. }
  assert (Hp : 0 <= - strength (card_data h) * dict_get QUALITY_MULTIPLIER q 1.0)
    by (apply Rmult_le_pos; lra).
  rewrite Rmax_left by lra. reflexivity.
Qed.

Lemma update_card_on_review_repairs_witness :
  (0 <= 2 <= 5)%Z
  /\ strength (card_data {| sys := frozen_clock NEW_YEAR;
                            card_data := set_strength 0 fresh_card |}) <= 0
  /\ strength (card_data
                 (snd (update_card_on_review 2
                         {| sys := frozen_clock NEW_YEAR;
                            card_data := set_strength 0 fresh_card |})))
     = 0.1.
Proof.
  assert (Hq : (0 <= 2 <= 5)%Z) by lia.
  assert (Hs : strength (card_data {| sys := frozen_clock NEW_YEAR;
                                      card_data := set_strength 0 fresh_card |})
               <= 0) by (cbn; lra).
  split; [exact Hq |]. split; [exact Hs |].
  exact (update_card_on_review_repairs 2 _ Hq Hs).
Defined.

(** X10: a review of quality 3 or more raises a positive strength that is
    at most the largest float, strictly; a review of quality 2 or less never
    raises a strength that is at least the floor 0.1, and lowers it strictly
    when it is above the floor and at most the largest float. *)
Theorem strength_direction (q : Z) (h : Heap) :
  (0 <= q <= 5)%Z ->
  let s := strength (card_data h) in
  let s' := strength (card_data (snd (update_card_on_review q h))) in
  ((3 <= q)%Z -> 0 < s <= MAX_FLOAT -> s < s')
  /\ ((q <= 2)%Z -> 0.1 <= s -> 0.1 <= s' <= s)
  /\ ((q <= 2)%Z -> 0.1 < s <= MAX_FLOAT -> s' < s).
Proof.
  intros Hq s s'. subst s'. rewrite post_strength by exact Hq. fold s.
  unfold reviewed_strength. fold s.
  assert (C : (q = 0 \/ q = 1 \/ q = 2 \/ q = 3 \/ q = 4 \/ q = 5)%Z) by lia.
  split; [| split]; intros Hq' Hs;
    (repeat (destruct C as [-> | C]; [try lia |]); try subst q; try lia);
    cbn; unfold Rmax; destruct (Rle_dec _ _); lra.
Qed.

Lemma strength_direction_witness :
  (0 <= 5 <= 5)%Z
  /\ (3 <= 5)%Z
  /\ 0 < strength (card_data fresh_heap) <= MAX_FLOAT
  /\ strength (card_data fresh_heap)
     < strength (card_data (snd (update_card_on_review 5 fresh_heap))).
Proof.
  assert (Hq : (0 <= 5 <= 5)%Z) by lia.
  assert (H3 : (3 <= 5)%Z) by lia.
  assert (Hs : 0 < strength (card_data fresh_heap) <= MAX_FLOAT).
  { change (strength (card_data fresh_heap)) with DEFAULT_STRENGTH.
    unfold DEFAULT_STRENGTH, MAX_FLOAT. split; [lra |].
    apply Rle_trans with (IZR 1); [lra |].
    apply IZR_le. vm_compute. discriminate. }
  split; [exact Hq |]. split; [exact H3 |]. split; [exact Hs |].
  exact (proj1 (strength_direction 5 fresh_heap Hq) H3 Hs).
Defined.

(** X11: on the same card, a better quality never gives a lower strength
    (for a strength that is not negative) nor a lower box (for a box in
    1..5). *)
Theorem review_monotone_in_quality (q1 q2 : Z) (h : Heap) :
  (0 <= q1 <= q2)%Z -> (q2 <= 5)%Z ->
  0 <= strength (card_data h) ->
  (1 <= box (card_data h) <= 5)%Z ->
  strength (card_data (snd (update_card_on_review q1 h)))
  <= strength (card_data (snd (update_card_on_review q2 h)))
  /\ (box (card_data (snd (update_card_on_review q1 h)))
      <= box (card_data (snd (update_card_on_review q2 h))))%Z.
Proof.
  intros H12 H2 Hs Hb.
  rewrite !post_strength, !post_box by lia.
  unfold reviewed_strength, reviewed_box, BOX_COUNT.
  set (s := strength (card_data h)) in *. set (b := box (card_data h)) in *.
  assert (C1 : (q1 = 0 \/ q1 = 1 \/ q1 = 2 \/ q1 = 3 \/ q1 = 4 \/ q1 = 5)%Z)
    by lia.
  assert (C2 : (q2 = 0 \/ q2 = 1 \/ q2 = 2 \/ q2 = 3 \/ q2 = 4 \/ q2 = 5)%Z)
    by lia.
  split.
  - repeat (destruct C1 as [E1 | C1]; [rewrite E1 in * |]); try rewrite C1 in *;
      (repeat (destruct C2 as [E2 | C2]; [rewrite E2 in *; try lia |]);
       try rewrite C2 in *; try lia);
      cbn; unfold Rmax; repeat destruct (Rle_dec _ _); lra.
  - repeat (destruct C1 as [E1 | C1]; [rewrite E1 in * |]); try rewrite C1 in *;
      (repeat (destruct C2 as [E2 | C2]; [rewrite E2 in *; try lia |]);
       try rewrite C2 in *; try lia);
      cbn; lia.
Qed.

Lemma review_monotone_in_quality_witness :
  (0 <= 2 <= 4)%Z /\ (4 <= 5)%Z
  /\ 0 <= strength (card_data fresh_heap)
  /\ (1 <= box (card_data fresh_heap) <= 5)%Z
  /\ strength (card_data (snd (update_card_on_review 2 fresh_heap)))
     <= strength (card_data (snd (update_card_on_review 4 fresh_heap))).
Proof.
  assert (H12 : (0 <= 2 <= 4)%Z) by lia.
  assert (H2 : (4 <= 5)%Z) by lia.
  assert (Hs : 0 <= strength (card_data fresh_heap))
    by (cbn; unfold DEFAULT_STRENGTH; lra).
  assert (Hb : (1 <= box (card_data fresh_heap) <= 5)%Z) by (cbn; lia).
  repeat split; try assumption; try lia; try (cbn; lia).
  exact (proj1 (review_monotone_in_quality 2 4 fresh_heap H12 H2 Hs Hb)).
Defined.

(** ** What a returned review leaves in the card *)

(** The outcome of a returning call, in full. *)
Lemma update_card_on_review_returned (q : Z) (h h' : Heap) (c : Card) :
  update_card_on_review q h = (inr c, h') ->
  (0 <= q <= 5)%Z
  /\ (ticks (current_time (sys h)) < 0
      \/ in_range (DT (ticks (current_time (sys h))
                       + interval_us (reviewed_strength (card_data h) q)))
         = true)%Z
  /\ c = fully_updated (card_data h) q (current_time (sys h))
           (isoformat
              (DT (ticks (current_time (sys h))
                   + interval_us (reviewed_strength (card_data h) q))))
  /\ h' = {| sys := tick (sys h); card_data := c |}.
Proof.
  intros H. pose proof (returned_quality_valid q h h' c H) as Hq.
  split; [exact Hq |].
  rewrite update_card_on_review_valid in H by exact Hq. cbv zeta in H.
  destruct (Z_lt_dec (ticks (current_time (sys h))) 0) as [Hneg | Hpos].
  - split; [left; exact Hneg |].
    (* a clock before the calendar: the scheduler computes the same sum *)
    unfold schedule_next_review, timedelta_days, add in H.
    fold (interval_days (reviewed_strength (card_data h) q)) in H.
    fold (interval_us (reviewed_strength (card_data h) q)) in H.
    cbn [total_us] in H.
    destruct (_ >? _)%Z; [discriminate |].
    destruct (in_range _); [| discriminate].
    injection H as <- <-. split; reflexivity.
  - pose proof (schedule_next_review_cases
                  (reviewed_strength (card_data h) q)
                  (current_time (sys h)) ltac:(lia)) as Hc.
    cbv zeta in Hc.
    destruct (in_range _) eqn:Hr.
    + split; [right; reflexivity |]. rewrite Hc in H.
      injection H as <- <-. split; reflexivity.
    + destruct Hc as [msg Hc]. rewrite Hc in H. discriminate.
Qed.

Lemma calculate_card_retention_eq (s : R) (lr : option string) (w : World) :
  calculate_card_retention s lr w = calculate_retention s lr w.
Proof.
  unfold calculate_card_retention, bind, ret.
  destruct (calculate_retention s lr w) as [[e | r] w']; reflexivity.
Qed.

(** X12: after a review that returned at clock reading [now], the retention
    endpoint called with the card's new strength and [last_review], at a
    clock reading [now'] that is not before [now], reads the stored timestamp
    back as [now] and answers [exp(-(now' - now) / strength)]: the epsilon
    clamp is inactive, the answer is at most 1, and exactly 1 at
    [now' = now]. *)
Theorem review_then_retention (q : Z) (h h' : Heap) (c : Card) (w' : World) :
  in_range (current_time (sys h)) = true ->
  update_card_on_review q h = (inr c, h') ->
  let now := current_time (sys h) in
  (ticks now <= ticks (current_time w'))%Z ->
  let t_days := elapsed_days (current_time w') now in
  calculate_card_retention (strength c) (last_review c) w'
  = (inr (exp (- t_days / strength c)), tick w')
  /\ exp (- t_days / strength c) <= 1
  /\ (current_time w' = now -> exp (- t_days / strength c) = 1).
Proof.
  intros Hin H now Hnow t_days.
  destruct (update_card_on_review_returned q h h' c H) as (Hq & _ & Hc & _).
  assert (Hs : 0.1 <= strength c)
    by (rewrite Hc; apply reviewed_strength_floor).
  assert (Hl : last_review c = Some (isoformat now)) by (rewrite Hc; reflexivity).
  split; [| split].
  - rewrite calculate_card_retention_eq, Hl.
    rewrite (calculate_retention_past (strength c) (isoformat now) now w')
      by (first [apply fromisoformat_isoformat; exact Hin | exact Hnow]).
    rewrite Rmax_right by lra. reflexivity.
  - pose proof (elapsed_days_nonneg _ _ Hnow) as Ht. fold t_days in Ht.
    rewrite <- exp_0 at 1. apply exp_monotone.
    assert (0 <= t_days * / strength c)
      by (apply Rmult_le_pos; [exact Ht | left; apply Rinv_0_lt_compat; lra]).
    unfold Rdiv. lra.
  - intros E. subst t_days. rewrite E. unfold elapsed_days.
    rewrite Z.sub_diag.
    replace (- (0 / 1000000 / 86400) / strength c) with 0
      by (unfold Rdiv; ring).
    apply exp_0.
Qed.

Lemma review_then_retention_witness :
  in_range (current_time (sys fresh_heap)) = true
  /\ update_card_on_review 5 fresh_heap
     = (inr (card_data reviewed_once), reviewed_once)
  /\ (ticks (current_time (sys fresh_heap))
      <= ticks (current_time (sys reviewed_once)))%Z
  /\ calculate_card_retention (strength (card_data reviewed_once))
       (last_review (card_data reviewed_once)) (sys reviewed_once)
     = (inr (exp (- elapsed_days (current_time (sys reviewed_once))
                      (current_time (sys fresh_heap))
                  / strength (card_data reviewed_once))),
        tick (sys reviewed_once)).
Proof.
  assert (Hin : in_range (current_time (sys fresh_heap)) = true)
    by (vm_compute; reflexivity).
  assert (Hle : (ticks (current_time (sys fresh_heap))
                 <= ticks (current_time (sys reviewed_once)))%Z)
    by (vm_compute; discriminate).
  split; [exact Hin |]. split; [exact first_review |]. split; [exact Hle |].
  exact (proj1 (review_then_retention 5 fresh_heap reviewed_once
                  (card_data reviewed_once) (sys reviewed_once)
                  Hin first_review Hle)).
Defined.

(** X13: after a review that returned, the two timestamps stored in the card
    parse back: [last_review] to the clock reading of the review and
    [next_review] to a datetime at least half a day later. *)
Theorem stored_timestamps (q : Z) (h h' : Heap) (c : Card) :
  in_range (current_time (sys h)) = true ->
  update_card_on_review q h = (inr c, h') ->
  exists (last next : string) (next_dt : datetime),
    last_review c = Some last /\ next_review c = Some next
    /\ fromisoformat last = inr (current_time (sys h))
    /\ fromisoformat next = inr next_dt
    /\ (ticks (current_time (sys h)) + HALF_DAY_US <= ticks next_dt)%Z.
Proof.
  intros Hin H.
  destruct (update_card_on_review_returned q h h' c H) as (Hq & Hr & Hc & _).
  pose proof Hin as Hnow. apply in_range_iff in Hnow.
  destruct Hr as [Hneg | Hr]; [lia |].
  set (next_dt := DT (ticks (current_time (sys h))
                      + interval_us (reviewed_strength (card_data h) q))) in *.
  exists (isoformat (current_time (sys h))), (isoformat next_dt), next_dt.
  rewrite Hc. cbn [last_review next_review fully_updated].
  rewrite !fromisoformat_isoformat by assumption.
  repeat split. subst next_dt. cbn [ticks].
  pose proof (interval_us_floor (reviewed_strength (card_data h) q)). lia.
Qed.

Lemma stored_timestamps_witness :
  in_range (current_time (sys fresh_heap)) = true
  /\ update_card_on_review 5 fresh_heap
     = (inr (card_data reviewed_once), reviewed_once)
  /\ exists (last next : string) (next_dt : datetime),
       last_review (card_data reviewed_once) = Some last
       /\ next_review (card_data reviewed_once) = Some next
       /\ fromisoformat last = inr (current_time (sys fresh_heap))
       /\ fromisoformat next = inr next_dt
       /\ (ticks (current_time (sys fresh_heap)) + HALF_DAY_US
           <= ticks next_dt)%Z.
Proof.
  assert (Hin : in_range (current_time (sys fresh_heap)) = true)
    by (vm_compute; reflexivity).
  split; [exact Hin |]. split; [exact first_review |].
  exact (stored_timestamps 5 fresh_heap reviewed_once
           (card_data reviewed_once) Hin first_review).
Defined.

(** ** The schedule endpoint *)

(** X14: the schedule endpoint reads the clock exactly once, also when it
    fails, and a returned [next_review] parses to a datetime at least half a
    day after that reading. *)
Theorem calculate_schedule_endpoint (s : R) (w : World) :
  in_range (current_time w) = true ->
  snd (calculate_schedule s w) = tick w
  /\ (forall next : string,
        fst (calculate_schedule s w) = inr next ->
        exists next_dt : datetime,
          fromisoformat next = inr next_dt
          /\ (ticks (current_time w) + HALF_DAY_US <= ticks next_dt)%Z).
Proof.
  intros Hin. pose proof Hin as Hnow. apply in_range_iff in Hnow.
  unfold calculate_schedule, bind, utcnow, lift, ret.
  pose proof (schedule_next_review_cases s (current_time w) ltac:(lia)) as Hc.
  cbv zeta in Hc.
  destruct (in_range (DT (ticks (current_time w) + interval_us s))) eqn:Hr.
  - rewrite Hc. cbn [fst snd]. split; [reflexivity |].
    intros next E. injection E as <-.
    exists (DT (ticks (current_time w) + interval_us s)).
    rewrite fromisoformat_isoformat by exact Hr. split; [reflexivity |].
    cbn [ticks]. pose proof (interval_us_floor s). lia.
  - destruct Hc as [msg Hc]. rewrite Hc. cbn [fst snd].
    split; [reflexivity |].
    intros next E. discriminate.
Qed.

Lemma calculate_schedule_endpoint_witness :
  in_range (current_time (frozen_clock NEW_YEAR)) = true
  /\ snd (calculate_schedule 1 (frozen_clock NEW_YEAR))
     = tick (frozen_clock NEW_YEAR).
Proof.
  assert (Hin : in_range (current_time (frozen_clock NEW_YEAR)) = true)
    by (vm_compute; reflexivity).
  split; [exact Hin |].
  exact (proj1 (calculate_schedule_endpoint 1 (frozen_clock NEW_YEAR) Hin)).
Defined.

(** ** Sequences of reviews *)

Lemma returned_card (q : Z) (h h' : Heap) (c : Card) :
  update_card_on_review q h = (inr c, h') ->
  (0 <= q <= 5)%Z
  /\ strength (card_data h') = reviewed_strength (card_data h) q
  /\ box (card_data h') = reviewed_box (card_data h) q
  /\ entries (card_data h')
     = entries (card_data h)
       ++ [reviewed_entry (card_data h) q (current_time (sys h))].
Proof.
  intros H.
  destruct (update_card_on_review_returned q h h' c H) as (Hq & _ & Hc & Hh).
  subst h' c. repeat split; try lia; reflexivity.
Qed.

(** X15: a run of [n] returning reviews, all of quality 4 or 5, moves a card
    from box [b] in 1..5 to box [min(5, b + n)]; four of them reach box 5
    from any box. *)
Theorem good_reviews_advance (h h' : Heap) (qs : list Z) :
  reviews h qs h' ->
  Forall (fun q => 4 <= q)%Z qs ->
  (1 <= box (card_data h) <= 5)%Z ->
  box (card_data h') = Z.min 5 (box (card_data h) + Z.of_nat (length qs)).
Proof.
  intros Hrun. induction Hrun as [h | h h1 h2 q c qs Hstep Hrest IH];
    intros Hall Hb.
  - cbn. lia.
  - inversion Hall as [| ? ? Hq Hall']; subst.
    destruct (returned_card q h h1 c Hstep) as (Hv & _ & Hbox & _).
    assert (E : box (card_data h1) = Z.min 5 (box (card_data h) + 1)).
    { rewrite Hbox. unfold reviewed_box, BOX_COUNT.
      destruct (Z.geb_spec q 4); [reflexivity | lia]. }
    rewrite IH by (try assumption; lia).
    rewrite E. cbn [length]. lia.
Qed.

Lemma good_reviews_advance_witness :
  reviews fresh_heap [5%Z] reviewed_once
  /\ Forall (fun q => 4 <= q)%Z [5%Z]
  /\ (1 <= box (card_data fresh_heap) <= 5)%Z
  /\ box (card_data reviewed_once)
     = Z.min 5 (box (card_data fresh_heap) + Z.of_nat (length [5%Z])).
Proof.
  assert (H0 : reviews fresh_heap [5%Z] reviewed_once)
    by (eapply reviews_cons; [exact first_review | apply reviews_nil]).
  assert (H1 : Forall (fun q => 4 <= q)%Z [5%Z])
    by (constructor; [lia | constructor]).
  assert (H2 : (1 <= box (card_data fresh_heap) <= 5)%Z) by (cbn; lia).
  split; [exact H0 |]. split; [exact H1 |]. split; [exact H2 |].
  exact (good_reviews_advance fresh_heap reviewed_once [5%Z] H0 H1 H2).
Defined.

(** X16: over a run of returning reviews the history only grows at its end:
    the entries present before the run are kept in place and order, one
    entry is added per review, and the added entries carry the qualities of
    the reviews in the order of the calls. *)
Theorem history_append_only (h h' : Heap) (qs : list Z) :
  reviews h qs h' ->
  exists added : list HistoryEntry.t,
    entries (card_data h') = entries (card_data h) ++ added
    /\ map HistoryEntry.quality added = qs.
Proof.
  intros Hrun. induction Hrun as [h | h h1 h2 q c qs Hstep Hrest IH].
  - exists []. rewrite app_nil_r. split; reflexivity.
  - destruct IH as [added [Happ Hmap]].
    destruct (returned_card q h h1 c Hstep) as (_ & _ & _ & Hent).
    exists (reviewed_entry (card_data h) q (current_time (sys h)) :: added).
    split.
    + rewrite Happ, Hent, <- app_assoc. reflexivity.
    + cbn [map]. rewrite Hmap. reflexivity.
Qed.

Lemma history_append_only_witness :
  reviews fresh_heap [5%Z; 1%Z] reviewed_twice
  /\ exists added : list HistoryEntry.t,
       entries (card_data reviewed_twice)
       = entries (card_data fresh_heap) ++ added
       /\ map HistoryEntry.quality added = [5%Z; 1%Z].
Proof.
  assert (H0 : reviews fresh_heap [5%Z; 1%Z] reviewed_twice).
  { eapply reviews_cons; [exact first_review |].
    eapply reviews_cons; [exact second_review | apply reviews_nil]. }
  split; [exact H0 |].
  exact (history_append_only fresh_heap reviewed_twice [5%Z; 1%Z] H0).
Defined.

Lemma last_entry_snoc (l : list HistoryEntry.t) (e : HistoryEntry.t) :
  last_entry (l ++ [e]) = Some e.
Proof.
  induction l as [| a l IH]; [reflexivity |].
  cbn [app]. destruct l as [| b l]; [reflexivity |].
  cbn [app last_entry] in *. exact IH.
Qed.

Lemma chained_snoc (l : list HistoryEntry.t) (e : HistoryEntry.t) :
  chained l ->
  match last_entry l with
  | Some e0 =>
      HistoryEntry.new_strength e0 = HistoryEntry.old_strength e
      /\ HistoryEntry.new_box e0 = HistoryEntry.old_box e
  | None => True
  end ->
  chained (l ++ [e]).
Proof.
  induction l as [| a l IH]; intros Hc Hl; [exact I |].
  destruct l as [| b l].
  - cbn in *. tauto.
  - cbn [app chained] in *. destruct Hc as (H1 & H2 & Hc).
    repeat split; try assumption. apply IH; assumption.
Qed.

Lemma audit_step (q : Z) (h h' : Heap) (c : Card) :
  update_card_on_review q h = (inr c, h') ->
  audit_ok (card_data h) -> audit_ok (card_data h').
Proof.
  intros Hstep [Hc Hl].
  destruct (returned_card q h h' c Hstep) as (_ & Hs & Hb & Hent).
  unfold audit_ok. rewrite Hent, last_entry_snoc. split.
  - apply chained_snoc; [exact Hc |].
    destruct (last_entry (entries (card_data h))); [| exact I].
    cbn. exact Hl.
  - cbn. rewrite Hs, Hb. split; reflexivity.
Qed.

(** X17: the history is a consistent audit trail.  If every entry starts from
    the strength and box its predecessor ended with, and the last entry
    ends with the card's strength and box (or there is no entry), the same
    holds after any run of returning reviews; so it holds for every card
    that started without a history. *)
Theorem audit_trail_consistent (h h' : Heap) (qs : list Z) :
  reviews h qs h' ->
  audit_ok (card_data h) ->
  audit_ok (card_data h').
Proof.
  intros Hrun. induction Hrun as [h | h h1 h2 q c qs Hstep Hrest IH];
    intros Hok; [exact Hok |].
  apply IH. exact (audit_step q h h1 c Hstep Hok).
Qed.

Lemma audit_trail_consistent_witness :
  reviews fresh_heap [5%Z; 1%Z] reviewed_twice
  /\ audit_ok (card_data fresh_heap)
  /\ audit_ok (card_data reviewed_twice).
Proof.
  assert (H0 : reviews fresh_heap [5%Z; 1%Z] reviewed_twice).
  { eapply reviews_cons; [exact first_review |].
    eapply reviews_cons; [exact second_review | apply reviews_nil]. }
  assert (H1 : audit_ok (card_data fresh_heap)) by (split; exact I).
  split; [exact H0 |]. split; [exact H1 |].
  exact (audit_trail_consistent fresh_heap reviewed_twice _ H0 H1).
Defined.

(** ** The health endpoint *)

(** X18: the health endpoint never fails, reads the clock once, and its
    timestamp parses back to exactly that clock reading. *)
Theorem health_check_timestamp (w : World) :
  in_range (current_time w) = true ->
  exists r : Health,
    health_check w = (inr r, tick w)
    /\ status r = "healthy"%string
    /\ fromisoformat (timestamp r) = inr (current_time w).
Proof.
  intros Hin. eexists. split; [reflexivity |]. split; [reflexivity |].
  cbn [timestamp]. apply fromisoformat_isoformat. exact Hin.
Qed.

Lemma health_check_timestamp_witness :
  in_range (current_time (frozen_clock NEW_YEAR)) = true
  /\ exists r : Health,
       health_check (frozen_clock NEW_YEAR)
       = (inr r, tick (frozen_clock NEW_YEAR))
       /\ status r = "healthy"%string
       /\ fromisoformat (timestamp r) = inr (current_time (frozen_clock NEW_YEAR)).
Proof.
  assert (Hin : in_range (current_time (frozen_clock NEW_YEAR)) = true)
    by (vm_compute; reflexivity).
  split; [exact Hin |].
  exact (health_check_timestamp (frozen_clock NEW_YEAR) Hin).
Defined.

End Further.
